(** * MongoInstance: a shallow embedding of
    packages/mongodb-memory-server-core/src/util/MongoInstance.ts

    The file follows the TypeScript class top-down: the JavaScript values the
    class relies on (numbers, promises, regular expressions), the options and
    the command builder [prepareCommandArgs], the handle [MongoInstance] with
    its handlers ([instanceReady], [instanceFailed], [stdoutHandler], ...),
    the primary waiters and the shutdown routine [kill].  The theorems come
    after the definitions. *)

From Stdlib Require Import ZArith Ascii String DecimalString.
From stdpp Require Import base tactics option list strings.

Local Open Scope string_scope.
Local Open Scope list_scope.

(** ** JavaScript values *)

Module JS.

(** A [number] as the options use it: an integer or [NaN].  Ports are
    integers; fractions and infinities are left out of the model. *)
Inductive number :=
| Num (z : Z)
| NaN.

(** [!!n]: [0] and [NaN] are the falsy numbers. *)
Definition truthy_number (n : number) : bool :=
  match n with
  | Num z => negb (z =? 0)%Z
  | NaN => false
  end.

(** [n.toString()] (decimal; exact for integers below 10^21). *)
Definition number_toString (n : number) : string :=
  match n with
  | Num z => NilZero.string_of_int (Z.to_int z)
  | NaN => "NaN"
  end.

(** [!!s]: the empty string is the only falsy string. *)
Definition truthy_string (s : string) : bool :=
  match s with
  | EmptyString => false
  | String _ _ => true
  end.

(** An optional property [x?: T]; [None] is [undefined]. *)
Definition truthy {A} (t : A -> bool) (o : option A) : bool :=
  match o with
  | Some a => t a
  | None => false
  end.

(** [o || d] for an optional string [o]. *)
Definition or_else (o : option string) (d : string) : string :=
  match o with
  | Some s => if truthy_string s then s else d
  | None => d
  end.

(** [`${o}`] for an optional number, as in a template literal. *)
Definition template_number (o : option number) : string :=
  match o with
  | Some n => number_toString n
  | None => "undefined"
  end.

(** The state of a promise.  [resolve] and [reject] settle a pending
    promise and do nothing on a settled one. *)
Inductive promise (A E : Type) :=
| Pending
| Fulfilled (a : A)
| Rejected (e : E).
Arguments Pending {A E}.
Arguments Fulfilled {A E} a.
Arguments Rejected {A E} e.

Definition resolve {A E} (a : A) (p : promise A E) : promise A E :=
  match p with
  | Pending => Fulfilled a
  | _ => p
  end.

Definition reject {A E} (e : E) (p : promise A E) : promise A E :=
  match p with
  | Pending => Rejected e
  | _ => p
  end.

Definition settled {A E} (p : promise A E) : bool :=
  match p with
  | Pending => false
  | _ => true
  end.

End JS.

(** ** Regular expressions

    The patterns of [stdoutHandler] are sequences of single characters,
    character classes and starred or plussed classes, all with the [i] flag.
    [bt] is the backtracking matcher of ECMAScript written with a
    continuation; a line is a [string] whose characters are code units
    below 256. *)

Module RegExp.

(** What one pattern character can stand for. *)
Inductive cset :=
| Chr (c : ascii)   (* the character itself *)
| Dot               (* [.]: anything but a line terminator *)
| Digit             (* [\d] *)
| Word.             (* [\w] *)

Inductive atom :=
| Single (s : cset)
| OneOf (l : list cset).   (* [[...]] *)

Inductive node :=
| One (a : atom)
| Star (a : atom)       (* [a*]  *)
| LazyStar (a : atom)   (* [a*?] *)
| Plus (a : atom).      (* [a+]  *)

Record t := mk { source : list node; ignoreCase : bool }.

Definition between (lo hi c : ascii) : bool :=
  ((N_of_ascii lo <=? N_of_ascii c) && (N_of_ascii c <=? N_of_ascii hi))%N.

Definition is_digit (c : ascii) : bool := between "0" "9" c.
Definition is_lower (c : ascii) : bool := between "a" "z" c.
Definition is_upper (c : ascii) : bool := between "A" "Z" c.
Definition is_letter (c : ascii) : bool := is_lower c || is_upper c.
Definition is_word (c : ascii) : bool :=
  is_letter c || is_digit c || Ascii.eqb c "_".
Definition is_line_terminator (c : ascii) : bool :=
  Ascii.eqb c "010" || Ascii.eqb c "013".

(** Canonicalize of the [i] flag: upper case.  A character outside ASCII
    never canonicalizes to an ASCII one, and the patterns below are ASCII,
    so only the ASCII letters need folding. *)
Definition canonicalize (i : bool) (c : ascii) : ascii :=
  if i && is_lower c then ascii_of_N (N_of_ascii c - 32) else c.

Definition cset_matches (i : bool) (s : cset) (c : ascii) : bool :=
  match s with
  | Chr x => Ascii.eqb (canonicalize i x) (canonicalize i c)
  | Dot => negb (is_line_terminator c)
  | Digit => is_digit c
  | Word => is_word c
  end.

Definition atom_matches (i : bool) (a : atom) (c : ascii) : bool :=
  match a with
  | Single s => cset_matches i s c
  | OneOf l => existsb (fun s => cset_matches i s c) l
  end.

Section Matcher.
Context {R : Type}.

(** [p*] followed by the continuation [k]: the greedy form first tries
    to take one more character, the lazy form first tries [k]. *)
Fixpoint star (greedy : bool) (p : ascii -> bool)
    (k : list ascii -> option R) (s : list ascii) : option R :=
  match s with
  | [] => k []
  | c :: s' =>
      if p c then
        if greedy then
          match star greedy p k s' with
          | Some r => Some r
          | None => k s
          end
        else
          match k s with
          | Some r => Some r
          | None => star greedy p k s'
          end
      else k s
  end.

Fixpoint bt (i : bool) (r : list node)
    (k : list ascii -> option R) (s : list ascii) : option R :=
  match r with
  | [] => k s
  | One a :: r' =>
      match s with
      | c :: s' => if atom_matches i a c then bt i r' k s' else None
      | [] => None
      end
  | Star a :: r' => star true (atom_matches i a) (bt i r' k) s
  | LazyStar a :: r' => star false (atom_matches i a) (bt i r' k) s
  | Plus a :: r' =>
      match s with
      | c :: s' =>
          if atom_matches i a c
          then star true (atom_matches i a) (bt i r' k) s'
          else None
      | [] => None
      end
  end.

(** The first start position, from the left, at which [m] succeeds. *)
Fixpoint leftmost (m : list ascii -> option R) (s : list ascii) : option R :=
  match m s with
  | Some r => Some r
  | None =>
      match s with
      | [] => None
      | _ :: s' => leftmost m s'
      end
  end.
End Matcher.

Definition chars (s : string) : list ascii := list_ascii_of_string s.

(** [re.test(line)] *)
Definition test (re : t) (line : string) : bool :=
  match leftmost (bt (ignoreCase re) (source re) (fun _ => Some tt)) (chars line) with
  | Some _ => true
  | None => false
  end.

(** [re.exec(line)?.[1]] for a pattern [pre(grp)] whose single capturing
    group closes the pattern: the text the group matched. *)
Definition exec1 (i : bool) (pre grp : list node) (line : string) : option string :=
  leftmost
    (bt i pre (fun s1 =>
       bt i grp (fun s2 =>
         Some (string_of_list_ascii (take (length s1 - length s2) s1))) s1))
    (chars line).

(** A pattern made of literal characters. *)
Definition lit (s : string) : list node :=
  map (fun c => One (Single (Chr c))) (chars s).

End RegExp.

Import RegExp(One, Star, LazyStar, Plus, Single, OneOf, Chr, Dot, Digit, Word).

(** The patterns of [stdoutHandler], in the order it tests them. *)

Definition re_waiting : RegExp.t :=
  RegExp.mk (RegExp.lit "waiting for connections") true.
Definition re_addr_in_use : RegExp.t :=
  RegExp.mk (RegExp.lit "addr already in use") true.
Definition re_already_running : RegExp.t :=
  RegExp.mk (RegExp.lit "mongod instance already running") true.
Definition re_permission_denied : RegExp.t :=
  RegExp.mk (RegExp.lit "permission denied") true.
Definition re_data_directory : RegExp.t :=
  RegExp.mk (RegExp.lit "Data directory " ++ [LazyStar (Single Dot)]
             ++ RegExp.lit " not found") true.
Definition re_curl3 : RegExp.t :=
  RegExp.mk (RegExp.lit "CURL_OPENSSL_3" ++ [Star (Single Dot)]
             ++ RegExp.lit "not found") true.
Definition re_curl4 : RegExp.t :=
  RegExp.mk (RegExp.lit "CURL_OPENSSL_4" ++ [Star (Single Dot)]
             ++ RegExp.lit "not found") true.
Definition re_shutting_down : RegExp.t :=
  RegExp.mk (RegExp.lit "shutting down with code") true.
Definition re_aborting : RegExp.t :=
  RegExp.mk (RegExp.lit "***aborting after") true.
Definition re_primary : RegExp.t :=
  RegExp.mk
    (RegExp.lit "transition to primary complete; database writes are now permitted")
    true.

(** [member [\d\.:]+ is now in state ] and the group [\w+] that follows. *)
Definition addr_class : RegExp.atom := OneOf [Digit; Chr "."; Chr ":"].
Definition member_prefix : list RegExp.node :=
  RegExp.lit "member " ++ [Plus addr_class]
  ++ RegExp.lit " is now in state ".
Definition member_group : list RegExp.node := [Plus (Single Word)].

Definition re_member : RegExp.t :=
  RegExp.mk (member_prefix ++ member_group) true.
Definition exec_member (line : string) : option string :=
  RegExp.exec1 true member_prefix member_group line.

(** ** Options and the command builder *)

(** [MongoInstanceOpts]; every property is optional.  [StorageEngineT] is a
    union of string literals declared in [../types]; it is a [string] here. *)
Record MongoInstanceOpts := {
  port : option JS.number;
  ip : option string;
  storageEngine : option string;
  dbPath : option string;
  replSet : option string;
  args : option (list string);
  auth : option bool
}.

(** [opts.instance ?? {}] *)
Definition no_opts : MongoInstanceOpts :=
  {| port := None; ip := None; storageEngine := None; dbPath := None;
     replSet := None; args := None; auth := None |}.

(** [if (!!o) { result.push(name, o) }] for an optional string [o]. *)
Definition push_if_truthy (name : string) (o : option string)
    (result : list string) : list string :=
  match o with
  | Some v => if JS.truthy_string v then result ++ [name; v] else result
  | None => result
  end.

(** [prepareCommandArgs()]: each [push] appends to [result]. *)
Definition prepareCommandArgs (instanceOpts : MongoInstanceOpts) : list string :=
  let result := [] in
  let result := result ++ ["--bind_ip"; JS.or_else (ip instanceOpts) "127.0.0.1"] in
  let result :=
    match port instanceOpts with
    | Some n =>
        if JS.truthy_number n then result ++ ["--port"; JS.number_toString n]
        else result
    | None => result
    end in
  let result := push_if_truthy "--storageEngine" (storageEngine instanceOpts) result in
  let result := push_if_truthy "--dbpath" (dbPath instanceOpts) result in
  let result :=
    if JS.truthy id (auth instanceOpts)
    then result ++ ["--auth"]
    else result ++ ["--noauth"] in
  let result := push_if_truthy "--replSet" (replSet instanceOpts) result in
  result ++ default [] (args instanceOpts).

(** ** The handle and what its methods do to the outside *)

Module MongoInstanceEvents.
Inductive t :=
| instanceState
| instancePrimary
| instanceReady
| instanceSTDOUT
| instanceSTDERR
| instanceClosed
| instanceError
| killerLaunched
| instanceLaunched
| instanceStarted.
End MongoInstanceEvents.

Inductive signal := SIGTERM | SIGINT | SIGKILL.

(** A spawned process: its [pid] and, for the shutdown routine, how the
    process answers a signal: the delay in milliseconds after which its
    [exit] event fires once the signal is sent, [None] if it never does. *)
Record ChildProcess := {
  pid : option N;
  exitAfterSIGINT : option N;
  exitAfterSIGKILL : option N
}.

(** Arguments of an emitted event. *)
Inductive value :=
| VString (s : string)
| VNumber (z : Z).

(** What a method does besides updating the handle, in order. *)
Inductive effect :=
| Emit (e : MongoInstanceEvents.t) (payload : list value)  (* [this.emit(e, ...)] *)
| Kill (p : ChildProcess) (s : signal)                  (* [p.kill(s)] *)
| ResolveFn (w : nat) (v : bool).   (* the resolve function of wait [w] is called *)

(** The fields of the class.  [launch] is the promise made by [run()], whose
    [resolve] and [reject] the closures [instanceReady] and [instanceFailed]
    hold; it is [None] as long as these two fields still hold the no-op
    functions they are initialised with.  [waitForPrimaryResolveFns] holds
    resolve functions; each is named by the index, in [primaryWaits], of the
    promise it belongs to.  Debug logging is left out. *)
Record MongoInstance := {
  instanceOpts : MongoInstanceOpts;
  childProcess : option ChildProcess;
  killerProcess : option ChildProcess;
  waitForPrimaryResolveFns : list nat;
  isInstancePrimary : bool;
  isInstanceReady : bool;
  launch : option (JS.promise unit string);
  primaryWaits : list (JS.promise bool string)
}.

(** [new MongoInstance(opts)] *)
Definition new (opts : MongoInstanceOpts) : MongoInstance :=
  {| instanceOpts := opts; childProcess := None; killerProcess := None;
     waitForPrimaryResolveFns := []; isInstancePrimary := false;
     isInstanceReady := false; launch := None; primaryWaits := [] |}.

Definition set_childProcess (v : option ChildProcess) (t : MongoInstance) :=
  {| instanceOpts := instanceOpts t; childProcess := v;
     killerProcess := killerProcess t;
     waitForPrimaryResolveFns := waitForPrimaryResolveFns t;
     isInstancePrimary := isInstancePrimary t;
     isInstanceReady := isInstanceReady t; launch := launch t;
     primaryWaits := primaryWaits t |}.
Definition set_killerProcess (v : option ChildProcess) (t : MongoInstance) :=
  {| instanceOpts := instanceOpts t; childProcess := childProcess t;
     killerProcess := v;
     waitForPrimaryResolveFns := waitForPrimaryResolveFns t;
     isInstancePrimary := isInstancePrimary t;
     isInstanceReady := isInstanceReady t; launch := launch t;
     primaryWaits := primaryWaits t |}.
Definition set_waitForPrimaryResolveFns (v : list nat) (t : MongoInstance) :=
  {| instanceOpts := instanceOpts t; childProcess := childProcess t;
     killerProcess := killerProcess t;
     waitForPrimaryResolveFns := v;
     isInstancePrimary := isInstancePrimary t;
     isInstanceReady := isInstanceReady t; launch := launch t;
     primaryWaits := primaryWaits t |}.
Definition set_isInstancePrimary (v : bool) (t : MongoInstance) :=
  {| instanceOpts := instanceOpts t; childProcess := childProcess t;
     killerProcess := killerProcess t;
     waitForPrimaryResolveFns := waitForPrimaryResolveFns t;
     isInstancePrimary := v;
     isInstanceReady := isInstanceReady t; launch := launch t;
     primaryWaits := primaryWaits t |}.
Definition set_isInstanceReady (v : bool) (t : MongoInstance) :=
  {| instanceOpts := instanceOpts t; childProcess := childProcess t;
     killerProcess := killerProcess t;
     waitForPrimaryResolveFns := waitForPrimaryResolveFns t;
     isInstancePrimary := isInstancePrimary t;
     isInstanceReady := v; launch := launch t;
     primaryWaits := primaryWaits t |}.
Definition set_launch (v : option (JS.promise unit string)) (t : MongoInstance) :=
  {| instanceOpts := instanceOpts t; childProcess := childProcess t;
     killerProcess := killerProcess t;
     waitForPrimaryResolveFns := waitForPrimaryResolveFns t;
     isInstancePrimary := isInstancePrimary t;
     isInstanceReady := isInstanceReady t; launch := v;
     primaryWaits := primaryWaits t |}.
Definition set_primaryWaits (v : list (JS.promise bool string)) (t : MongoInstance) :=
  {| instanceOpts := instanceOpts t; childProcess := childProcess t;
     killerProcess := killerProcess t;
     waitForPrimaryResolveFns := waitForPrimaryResolveFns t;
     isInstancePrimary := isInstancePrimary t;
     isInstanceReady := isInstanceReady t; launch := launch t;
     primaryWaits := v |}.

(** A method: it reads and updates [this] and leaves a trace of effects. *)
Definition M (A : Type) : Type := MongoInstance -> A * MongoInstance * list effect.

Definition ret {A} (a : A) : M A := fun this => (a, this, []).
Definition bind {A B} (m : M A) (f : A -> M B) : M B :=
  fun this =>
    let '(a, this1, tr1) := m this in
    let '(b, this2, tr2) := f a this1 in
    (b, this2, tr1 ++ tr2).
Definition get : M MongoInstance := fun this => (this, this, []).
Definition modify (f : MongoInstance -> MongoInstance) : M unit :=
  fun this => (tt, f this, []).
Definition tell (e : effect) : M unit := fun this => (tt, this, [e]).
Definition emit (e : MongoInstanceEvents.t) (payload : list value) : M unit :=
  tell (Emit e payload).

Declare Scope method_scope.
Delimit Scope method_scope with method.
Notation "x <- m ;; k" := (bind m (fun x => k))
  (at level 100, m at next level, right associativity) : method_scope.
Notation "m ;; k" := (bind m (fun _ => k))
  (at level 100, right associativity) : method_scope.
Local Open Scope method_scope.

(** [xs.forEach(f)] *)
Fixpoint forEach {A} (xs : list A) (f : A -> M unit) : M unit :=
  match xs with
  | [] => ret tt
  | x :: xs' => f x ;; forEach xs' f
  end.

(** The state of the handle and the trace after a method ran. *)
Definition state_of {A} (r : A * MongoInstance * list effect) : MongoInstance := snd (fst r).
Definition trace_of {A} (r : A * MongoInstance * list effect) : list effect := snd r.
Definition result_of {A} (r : A * MongoInstance * list effect) : A := fst (fst r).

(** How an [async] method ends: it returns or it throws (rejects). *)
Inductive outcome (A : Type) :=
| Returned (a : A)
| Thrown (e : string).
Arguments Returned {A} a.
Arguments Thrown {A} e.

(** *** [run()] *)

(** The closure stored in [this.instanceReady] (the no-op before [run()]). *)
Definition instanceReady : M unit :=
  this <- get ;;
  match launch this with
  | None => ret tt
  | Some p =>
      modify (set_isInstanceReady true) ;;
      modify (set_launch (Some (JS.resolve tt p)))
  end.

(** The closure stored in [this.instanceFailed] (the no-op before [run()]).
    [killerProcess.kill()] sends the default signal, [SIGTERM]. *)
Definition instanceFailed (err : string) : M unit :=
  this <- get ;;
  match launch this with
  | None => ret tt
  | Some p =>
      match killerProcess this with
      | Some killer => tell (Kill killer SIGTERM)
      | None => ret tt
      end ;;
      modify (set_launch (Some (JS.reject err p)))
  end.

(** [_launchMongod]: the spawned process comes from the operating system and
    is a parameter; the stream handlers it attaches are the methods below. *)
Definition _launchMongod (spawned : ChildProcess) : M (outcome ChildProcess) :=
  match pid spawned with
  | None => ret (Thrown "Spawned Mongo Instance PID is undefined")
  | Some _ => emit MongoInstanceEvents.instanceLaunched [] ;; ret (Returned spawned)
  end.

Definition _launchKiller (spawned : ChildProcess) : M ChildProcess :=
  emit MongoInstanceEvents.killerLaunched [] ;; ret spawned.

(** [run()] up to [await launch]: the promise is made and both closures are
    stored, then the two processes are launched.  [MongoBinary.getPath] is
    another module; it is taken to have resolved. *)
Definition run (spawnedMongod spawnedKiller : ChildProcess) : M (outcome unit) :=
  modify (set_launch (Some JS.Pending)) ;;
  r <- _launchMongod spawnedMongod ;;
  match r with
  | Thrown e => ret (Thrown e)
  | Returned child =>
      modify (set_childProcess (Some child)) ;;
      killer <- _launchKiller spawnedKiller ;;
      modify (set_killerProcess (Some killer)) ;;
      ret (Returned tt)
  end.

(** [run()] from [await launch] on, once [launch] is settled. *)
Definition run_resume : M (JS.promise unit string) :=
  this <- get ;;
  match launch this with
  | Some (JS.Fulfilled _) => emit MongoInstanceEvents.instanceStarted [] ;; ret (JS.Fulfilled tt)
  | Some (JS.Rejected e) => ret (JS.Rejected e)
  | _ => ret JS.Pending
  end.

(** *** [kill()] *)

Definition timeoutTime : N := 1000 * 10.

Definition exits_before (deadline : N) (delay : option N) : bool :=
  match delay with
  | Some d => (d <? deadline)%N
  | None => false
  end.

(** [kill_internal]: [SIGINT] is sent and a timer of [timeoutTime] runs; if
    [exit] comes first the timer is cleared and the promise resolves.  When
    the timer fires, [SIGKILL] is sent and a second timer of [timeoutTime]
    runs; when that one fires too the promise is rejected.  [name] is used in
    debug messages only. *)
Definition kill_internal (process : ChildProcess) (name : string) : M (outcome unit) :=
  tell (Kill process SIGINT) ;;
  if exits_before timeoutTime (exitAfterSIGINT process) then ret (Returned tt)
  else
    tell (Kill process SIGKILL) ;;
    if exits_before timeoutTime (exitAfterSIGKILL process)
       || exits_before (timeoutTime + timeoutTime) (exitAfterSIGINT process)
    then ret (Returned tt)
    else ret (Thrown "Process didnt exit, enable debug for more information.").

Definition kill : M (outcome unit) :=
  this <- get ;;
  r <- match childProcess this with
       | Some p => kill_internal p "childProcess"
       | None => ret (Returned tt)
       end ;;
  match r with
  | Thrown e => ret (Thrown e)
  | Returned _ =>
      r <- match killerProcess this with
           | Some p => kill_internal p "killerProcess"
           | None => ret (Returned tt)
           end ;;
      match r with
      | Thrown e => ret (Thrown e)
      | Returned _ => ret (Returned tt)
      end
  end.

(** *** [waitPrimaryReady()] *)

(** The promise the method returns is named by its index in [primaryWaits].
    When the instance is primary the promise is fulfilled from the start and
    no resolve function is kept. *)
Definition waitPrimaryReady : M nat :=
  this <- get ;;
  let w := length (primaryWaits this) in
  if isInstancePrimary this then
    modify (set_primaryWaits (primaryWaits this ++ [JS.Fulfilled true])) ;;
    ret w
  else
    modify (set_primaryWaits (primaryWaits this ++ [JS.Pending])) ;;
    modify (set_waitForPrimaryResolveFns (waitForPrimaryResolveFns this ++ [w])) ;;
    ret w.

(** Calling the resolve function of wait [w]. *)
Definition resolveFn (w : nat) (v : bool) : M unit :=
  tell (ResolveFn w v) ;;
  this <- get ;;
  modify (set_primaryWaits (alter (JS.resolve v) w (primaryWaits this))).

(** *** The handlers *)

Definition errorHandler (err : string) : M unit :=
  emit MongoInstanceEvents.instanceError [VString err] ;;
  instanceFailed err.

Definition closeHandler (code : Z) : M unit :=
  emit MongoInstanceEvents.instanceClosed [VNumber code].

Definition stderrHandler (message : string) : M unit :=
  emit MongoInstanceEvents.instanceSTDERR [VString message].

Definition libcurl3_message : string :=
  "libcurl3 is not available on your system. Mongod requires it and cannot be started without it." +:+ String "010" EmptyString +:+
  "You should manually install libcurl3 or try to use an newer version of MongoDB" +:+ String "010" EmptyString.
Definition libcurl4_message : string :=
  "libcurl4 is not available on your system. Mongod requires it and cannot be started without it." +:+ String "010" EmptyString +:+
  "You need to manually install libcurl4" +:+ String "010" EmptyString.

Definition stdoutHandler (message : string) : M unit :=
  let line := message in
  emit MongoInstanceEvents.instanceSTDOUT [VString line] ;;
  if RegExp.test re_waiting line then
    instanceReady ;;
    emit MongoInstanceEvents.instanceReady []
  else if RegExp.test re_addr_in_use line then
    this <- get ;;
    instanceFailed
      ("Port " +:+ JS.template_number (port (instanceOpts this)) +:+ " already in use")
  else if RegExp.test re_already_running line then
    instanceFailed "Mongod already running"
  else if RegExp.test re_permission_denied line then
    instanceFailed "Mongod permission denied"
  else if RegExp.test re_data_directory line then
    instanceFailed "Data directory not found"
  else if RegExp.test re_curl3 line then
    instanceFailed libcurl3_message
  else if RegExp.test re_curl4 line then
    instanceFailed libcurl4_message
  else if RegExp.test re_shutting_down line then
    this <- get ;;
    if negb (isInstanceReady this) then instanceFailed "Mongod shutting down"
    else ret tt
  else if RegExp.test re_aborting line then
    instanceFailed "Mongod internal error"
  else if RegExp.test re_primary line then
    modify (set_isInstancePrimary true) ;;
    emit MongoInstanceEvents.instancePrimary [] ;;
    this <- get ;;
    forEach (waitForPrimaryResolveFns this) (fun resolveFn_ => resolveFn resolveFn_ true)
  else if RegExp.test re_member line then
    let state := default "UNKOWN" (exec_member line) in
    emit MongoInstanceEvents.instanceState [VString state] ;;
    if negb (String.eqb state "PRIMARY") then modify (set_isInstancePrimary false)
    else ret tt
  else ret tt.

(** *** A run of the handle *)

(** What can happen to a handle from outside: data on the streams of the
    server process, its [close] and [error] events, and calls of the public
    methods. *)
Inductive input :=
| Run (spawnedMongod spawnedKiller : ChildProcess)
| Stdout (line : string)
| Stderr (message : string)
| Close (code : Z)
| Error (err : string)
| WaitPrimary
| Shutdown.

Definition step (i : input) : M unit :=
  match i with
  | Run m k => _ <- run m k ;; ret tt
  | Stdout line => stdoutHandler line
  | Stderr message => stderrHandler message
  | Close code => closeHandler code
  | Error err => errorHandler err
  | WaitPrimary => _ <- waitPrimaryReady ;; ret tt
  | Shutdown => _ <- kill ;; ret tt
  end.

Definition feed (inputs : list input) : M unit := forEach inputs step.

(** ** Vocabulary of the statements *)

(** The kinds of line of the classifier, one for each test of
    [stdoutHandler] and in the order of the tests; only the first pattern
    that matches acts. *)
Inductive marker :=
| Waiting
| AddrInUse
| AlreadyRunning
| PermissionDenied
| DataDirectory
| Curl3
| Curl4
| ShuttingDown
| Aborting
| Primary
| Member.

Global Instance marker_eq_dec : EqDecision marker.
Proof. solve_decision. Defined.

Definition pattern_of (m : marker) : RegExp.t :=
  match m with
  | Waiting => re_waiting
  | AddrInUse => re_addr_in_use
  | AlreadyRunning => re_already_running
  | PermissionDenied => re_permission_denied
  | DataDirectory => re_data_directory
  | Curl3 => re_curl3
  | Curl4 => re_curl4
  | ShuttingDown => re_shutting_down
  | Aborting => re_aborting
  | Primary => re_primary
  | Member => re_member
  end.

Definition markers : list marker :=
  [Waiting; AddrInUse; AlreadyRunning; PermissionDenied; DataDirectory;
   Curl3; Curl4; ShuttingDown; Aborting; Primary; Member].

(** The marker a line is classified as: the first whose pattern matches. *)
Definition classify (line : string) : option marker :=
  find (fun m => RegExp.test (pattern_of m) line) markers.

(** The failure a classified line stands for on a given handle, if any,
    with the message of the source. *)
Definition failure_of (this : MongoInstance) (m : marker) : option string :=
  match m with
  | AddrInUse =>
      Some ("Port " +:+ JS.template_number (port (instanceOpts this)) +:+ " already in use")
  | AlreadyRunning => Some "Mongod already running"
  | PermissionDenied => Some "Mongod permission denied"
  | DataDirectory => Some "Data directory not found"
  | Curl3 => Some libcurl3_message
  | Curl4 => Some libcurl4_message
  | ShuttingDown => if isInstanceReady this then None else Some "Mongod shutting down"
  | Aborting => Some "Mongod internal error"
  | Waiting | Primary | Member => None
  end.

Definition is_primary_line (i : input) : bool :=
  match i with
  | Stdout line =>
      match classify line with
      | Some Primary => true
      | _ => false
      end
  | _ => false
  end.

(** What the matcher [RegExp.bt] looks for, read off the pattern: the
    strings a sequence of nodes stands for. *)
Inductive matches (i : bool) : list RegExp.node -> list ascii -> Prop :=
| matches_nil : matches i [] []
| matches_one a r c m :
    RegExp.atom_matches i a c = true -> matches i r m ->
    matches i (One a :: r) (c :: m)
| matches_star a r m1 m2 :
    Forall (fun c => RegExp.atom_matches i a c = true) m1 -> matches i r m2 ->
    matches i (Star a :: r) (m1 ++ m2)
| matches_lazy a r m1 m2 :
    Forall (fun c => RegExp.atom_matches i a c = true) m1 -> matches i r m2 ->
    matches i (LazyStar a :: r) (m1 ++ m2)
| matches_plus a r c m1 m2 :
    RegExp.atom_matches i a c = true ->
    Forall (fun c => RegExp.atom_matches i a c = true) m1 -> matches i r m2 ->
    matches i (Plus a :: r) (c :: m1 ++ m2).

(** Equal up to the case of ASCII letters. *)
Definition same_ci (a b : list ascii) : Prop :=
  map (RegExp.canonicalize true) a = map (RegExp.canonicalize true) b.

(** A character of the class [[\d\.:]]. *)
Definition is_addr_char (c : ascii) : bool :=
  RegExp.is_digit c || Ascii.eqb c "." || Ascii.eqb c ":".

Definition is_space (c : ascii) : bool := Ascii.eqb c " ".

Fixpoint spaces (s : list ascii) : nat :=
  match s with
  | [] => 0
  | c :: s' => (if is_space c then 1 else 0) + spaces s'
  end.

(** The spaces a pattern asks for literally. *)
Fixpoint spaces_needed (r : list RegExp.node) : nat :=
  match r with
  | [] => 0
  | One (Single (Chr c)) :: r' => (if is_space c then 1 else 0) + spaces_needed r'
  | _ :: r' => spaces_needed r'
  end.

(** The line [member <addr> is now in state <state>]. *)
Definition member_line (addr state : string) : string :=
  "member " +:+ addr +:+ " is now in state " +:+ state.

(** The signal the failure closure sends to the killer process. *)
Definition killer_signalled (this : MongoInstance) : list effect :=
  match killerProcess this with
  | Some killer => [Kill killer SIGTERM]
  | None => []
  end.

(** Calling every stored resolve function with [true]. *)
Definition resolve_all (ws : list nat) (l : list (JS.promise bool string)) :=
  foldl (fun l w => alter (JS.resolve true) w l) l ws.

(** The strings a caller puts into the options, which the command builder
    passes on as they are. *)
Definition given (o : option string) : list string :=
  match o with
  | Some s => [s]
  | None => []
  end.

Definition supplied (o : MongoInstanceOpts) : list string :=
  given (ip o) ++ given (storageEngine o) ++ given (dbPath o)
  ++ given (replSet o) ++ default [] (args o).

Definition with_ip (v : option string) (o : MongoInstanceOpts) : MongoInstanceOpts :=
  {| port := port o; ip := v; storageEngine := storageEngine o; dbPath := dbPath o;
     replSet := replSet o; args := args o; auth := auth o |}.
Definition with_port (v : option JS.number) (o : MongoInstanceOpts) : MongoInstanceOpts :=
  {| port := v; ip := ip o; storageEngine := storageEngine o; dbPath := dbPath o;
     replSet := replSet o; args := args o; auth := auth o |}.
Definition with_args (v : option (list string)) (o : MongoInstanceOpts) : MongoInstanceOpts :=
  {| port := port o; ip := ip o; storageEngine := storageEngine o; dbPath := dbPath o;
     replSet := replSet o; args := v; auth := auth o |}.

Fixpoint occurrences (token : string) (l : list string) : nat :=
  match l with
  | [] => 0
  | x :: l' => (if String.eqb x token then 1 else 0) + occurrences token l'
  end.

(** What [kill_internal] observes of a process. *)
Definition exits_on_SIGINT (p : ChildProcess) : bool :=
  exits_before timeoutTime (exitAfterSIGINT p).
Definition stuck (p : ChildProcess) : bool :=
  negb (exits_before timeoutTime (exitAfterSIGKILL p))
  && negb (exits_before (timeoutTime + timeoutTime) (exitAfterSIGINT p)).


(** The signals [kill_internal] sends to a process, and whether the process
    outlasts both timers. *)
Definition escalation (o : option ChildProcess) : list effect :=
  match o with
  | Some p => Kill p SIGINT :: (if exits_on_SIGINT p then [] else [Kill p SIGKILL])
  | None => []
  end.
Definition is_stuck (o : option ChildProcess) : bool :=
  match o with
  | Some p => stuck p
  | None => false
  end.
Definition stuck_error : string :=
  "Process didnt exit, enable debug for more information.".

(** ** Handles and lines used in the examples *)

Definition example_opts : MongoInstanceOpts := with_port (Some (JS.Num 27017)) no_opts.
Definition example_mongod : ChildProcess :=
  {| pid := Some 4242%N; exitAfterSIGINT := Some 120%N; exitAfterSIGKILL := Some 5%N |}.
Definition example_killer : ChildProcess :=
  {| pid := Some 4243%N; exitAfterSIGINT := Some 30%N; exitAfterSIGKILL := Some 5%N |}.
Definition stuck_process (n : N) : ChildProcess :=
  {| pid := Some n; exitAfterSIGINT := None; exitAfterSIGKILL := None |}.

Definition line_waiting : string :=
  "I NETWORK [initandlisten] waiting for connections on port 27017".
Definition line_addr_in_use : string :=
  "E STORAGE [initandlisten] Failed to set up sockets: addr already in use".
Definition line_shutting_down : string :=
  "I CONTROL [initandlisten] shutting down with code:48".
Definition line_primary : string :=
  "I REPL [rsSync] transition to primary complete; database writes are now permitted".
Definition line_member : string :=
  "I REPL [replexec-0] Member 127.0.0.1:27018 is now in state SECONDARY".

(** A handle right after [run()] launched both processes, the same handle
    once the server is ready, and the ready handle with two primary waits. *)
Definition launching : MongoInstance :=
  state_of (feed [Run example_mongod example_killer] (new example_opts)).
Definition ready : MongoInstance :=
  state_of (feed [Stdout line_waiting] launching).
Definition two_waits : MongoInstance :=
  state_of (feed [WaitPrimary; WaitPrimary] ready).

(** ** The rest of the class, and more vocabulary *)

(** [getPid()]: [this.childProcess?.pid] *)
Definition getPid (this : MongoInstance) : option N :=
  match childProcess this with
  | Some process => pid process
  | None => None
  end.

Definition is_run (i : input) : bool :=
  match i with
  | Run _ _ => true
  | _ => false
  end.

Definition is_waiting_line (i : input) : bool :=
  match i with
  | Stdout line =>
      match classify line with
      | Some Waiting => true
      | _ => false
      end
  | _ => false
  end.

(** [text] occurs in [line], up to the case of ASCII letters. *)
Definition contains_ci (line text : string) : Prop :=
  exists before kw after,
    RegExp.chars line = before ++ kw ++ after /\ same_ci kw (RegExp.chars text).

(** The events that pass on what the server process does as it is: its
    output on both streams and its exit code. *)
Definition raw_events (i : input) : list effect :=
  match i with
  | Stdout line => [Emit MongoInstanceEvents.instanceSTDOUT [VString line]]
  | Stderr message => [Emit MongoInstanceEvents.instanceSTDERR [VString message]]
  | Close code => [Emit MongoInstanceEvents.instanceClosed [VNumber code]]
  | _ => []
  end.

Definition is_raw_event (e : effect) : bool :=
  match e with
  | Emit MongoInstanceEvents.instanceSTDOUT _
  | Emit MongoInstanceEvents.instanceSTDERR _
  | Emit MongoInstanceEvents.instanceClosed _ => true
  | _ => false
  end.

Definition error_events (i : input) : list effect :=
  match i with
  | Error err => [Emit MongoInstanceEvents.instanceError [VString err]]
  | _ => []
  end.

Definition is_error_event (e : effect) : bool :=
  match e with
  | Emit MongoInstanceEvents.instanceError _ => true
  | _ => false
  end.

(** What an input decides about a pending [launch] on a handle that is not
    ready: the readiness line fulfils it, a failure line and the [error]
    event of the process reject it, anything else leaves it pending. *)
Definition verdict (this : MongoInstance) (i : input) : option (JS.promise unit string) :=
  match i with
  | Stdout line =>
      match classify line with
      | Some Waiting => Some (JS.Fulfilled tt)
      | Some m => JS.Rejected <$> failure_of this m
      | None => None
      end
  | Error err => Some (JS.Rejected err)
  | _ => None
  end.

(** The first verdict in a list of inputs. *)
Fixpoint first_verdict (this : MongoInstance) (inputs : list input)
    : option (JS.promise unit string) :=
  match inputs with
  | [] => None
  | i :: inputs' =>
      match verdict this i with
      | Some v => Some v
      | None => first_verdict this inputs'
      end
  end.

(** The messages with which [stdoutHandler] can fail a launch. *)
Definition stdout_failures (this : MongoInstance) : list string :=
  ["Port " +:+ JS.template_number (port (instanceOpts this)) +:+ " already in use";
   "Mongod already running"; "Mongod permission denied"; "Data directory not found";
   libcurl3_message; libcurl4_message; "Mongod shutting down"; "Mongod internal error"].

(** How many of the optional settings of the command builder are in use. *)
Definition options_in_use (o : MongoInstanceOpts) : nat :=
  (if JS.truthy JS.truthy_number (port o) then 1 else 0)
  + (if JS.truthy JS.truthy_string (storageEngine o) then 1 else 0)
  + (if JS.truthy JS.truthy_string (dbPath o) then 1 else 0)
  + (if JS.truthy JS.truthy_string (replSet o) then 1 else 0).

Definition is_wait (i : input) : bool :=
  match i with
  | WaitPrimary => true
  | _ => false
  end.

(** The inputs that only pass something on or act on the processes. *)
Definition is_passive (i : input) : bool :=
  match i with
  | Stderr _ | Close _ | Shutdown => true
  | _ => false
  end.

Definition is_shutdown (i : input) : bool :=
  match i with
  | Shutdown => true
  | _ => false
  end.

(** ** Tactics *)

(** A line classified as [m] fails the tests before [m] and passes the test
    of [m]: the chain of [stdoutHandler] reduces to the branch of [m]. *)
Ltac classified H :=
  revert H; unfold stdoutHandler, classify, markers; cbn [find pattern_of];
  repeat (match goal with
          | |- context [RegExp.test ?re ?l] =>
              let E := fresh "E" in
              destruct (RegExp.test re l) eqn:E; cbv iota; try (intros H; discriminate H)
          end);
  intros H; try (injection H as <-).

(** Unfolds the plumbing of a method applied to a handle. *)
Ltac run_method :=
  cbv [bind emit tell get modify ret instanceFailed instanceReady
       state_of trace_of result_of];
  cbn [fst snd app].

(** * Theorems *)

(** ** Examples: the definitions on concrete inputs *)

Example re_waiting_ex :
  RegExp.test re_waiting "2020-01-01 I NETWORK [initandlisten] Waiting for connections on port 27017" = true.
Proof. reflexivity. Qed.

Example re_data_directory_ex :
  RegExp.test re_data_directory "exception in initAndListen: NonExistentPath: Data directory /tmp/x not found., terminating" = true.
Proof. reflexivity. Qed.

Example exec_member_ex :
  exec_member "I REPL Member 127.0.0.1:27017 is now in state SECONDARY, ok" = Some "SECONDARY".
Proof. reflexivity. Qed.

Example classify_ex :
  classify "E STORAGE Failed to set up listener: SocketException: Addr already in use" = Some AddrInUse.
Proof. reflexivity. Qed.

Example prepareCommandArgs_ex :
  prepareCommandArgs
    {| port := Some (JS.Num 27017); ip := None; storageEngine := Some "ephemeralForTest";
       dbPath := Some "/tmp/db"; replSet := None; args := Some ["--quiet"]; auth := None |}
  = ["--bind_ip"; "127.0.0.1"; "--port"; "27017"; "--storageEngine"; "ephemeralForTest";
     "--dbpath"; "/tmp/db"; "--noauth"; "--quiet"].
Proof. reflexivity. Qed.

Example run_ex :
  feed [Run example_mongod example_killer; Stdout line_waiting] (new example_opts)
  = (tt, ready,
     [Emit MongoInstanceEvents.instanceLaunched []; Emit MongoInstanceEvents.killerLaunched [];
      Emit MongoInstanceEvents.instanceSTDOUT [VString line_waiting];
      Emit MongoInstanceEvents.instanceReady []]).
Proof. reflexivity. Qed.

Example ready_ex :
  isInstanceReady ready = true /\ launch ready = Some (JS.Fulfilled tt)
  /\ run_resume ready = (JS.Fulfilled tt, ready, [Emit MongoInstanceEvents.instanceStarted []]).
Proof. repeat split; reflexivity. Qed.

Example run_without_pid_ex :
  result_of (run {| pid := None; exitAfterSIGINT := None; exitAfterSIGKILL := None |}
               example_killer (new example_opts))
  = Thrown "Spawned Mongo Instance PID is undefined".
Proof. reflexivity. Qed.

Example errorHandler_ex :
  errorHandler "spawn ENOENT" launching
  = (tt, set_launch (Some (JS.Rejected "spawn ENOENT")) launching,
     [Emit MongoInstanceEvents.instanceError [VString "spawn ENOENT"];
      Kill example_killer SIGTERM]).
Proof. reflexivity. Qed.

Example kill_ex :
  kill ready
  = (Returned tt, ready, [Kill example_mongod SIGINT; Kill example_killer SIGINT]).
Proof. reflexivity. Qed.

Example kill_forced_ex :
  let slow := {| pid := Some 9%N; exitAfterSIGINT := Some 15000%N; exitAfterSIGKILL := Some 20%N |} in
  kill (set_childProcess (Some slow) ready)
  = (Returned tt, set_childProcess (Some slow) ready,
     [Kill slow SIGINT; Kill slow SIGKILL; Kill example_killer SIGINT]).
Proof. reflexivity. Qed.

(** ** The command builder *)

Section CommandBuilder.

Lemma occurrences_app tok l1 l2 :
  occurrences tok (l1 ++ l2) = occurrences tok l1 + occurrences tok l2.
Proof. induction l1 as [|x l1 IH]; simpl; [reflexivity | rewrite IH; lia]. Qed.

Lemma occurrences_other tok x :
  tok <> x -> occurrences tok [x] = 0.
Proof.
  intros H. cbn [occurrences]. destruct (String.eqb_spec x tok); [congruence | reflexivity].
Qed.

Lemma occurrences_cons2 tok x y l :
  occurrences tok (x :: y :: l) = occurrences tok [x] + occurrences tok (y :: l).
Proof. cbn [occurrences]. lia. Qed.

Lemma occurrences_push tok name (o : option string) result :
  tok <> EmptyString ->
  occurrences tok (push_if_truthy name o result)
  = occurrences tok result
    + (if JS.truthy JS.truthy_string o then occurrences tok [name] else 0)
    + occurrences tok (given o).
Proof.
  intros Htok. destruct o as [[|c v]|]; cbn [push_if_truthy JS.truthy JS.truthy_string given].
  - rewrite (occurrences_other tok EmptyString) by congruence. lia.
  - rewrite occurrences_app, occurrences_cons2. lia.
  - cbn [occurrences]. lia.
Qed.

Lemma occurrences_or_else tok (o : option string) :
  tok <> EmptyString -> tok <> "127.0.0.1" ->
  occurrences tok [JS.or_else o "127.0.0.1"] = occurrences tok (given o).
Proof.
  intros Htok Hip. destruct o as [[|c v]|]; cbn [JS.or_else JS.truthy_string given].
  - rewrite !occurrences_other by congruence. reflexivity.
  - reflexivity.
  - rewrite occurrences_other by congruence. reflexivity.
Qed.

(** A number never prints as one of the option names. *)
Lemma number_toString_not_option n tok :
  String.get 0 tok = Some "-"%char -> String.get 1 tok = Some "-"%char ->
  JS.number_toString n <> tok.
Proof.
  intros H0 H1 E. subst tok. destruct n as [z|]; [|discriminate].
  destruct z as [|p|p]; simpl in *; try discriminate.
  - unfold NilZero.string_of_uint in H0.
    destruct (Pos.to_uint p); simpl in H0; discriminate.
  - unfold NilZero.string_of_uint in H1.
    destruct (Pos.to_uint p); simpl in H1; discriminate.
Qed.

Lemma occurrences_number tok n :
  String.get 0 tok = Some "-"%char -> String.get 1 tok = Some "-"%char ->
  occurrences tok [JS.number_toString n] = 0.
Proof.
  intros H0 H1. apply occurrences_other. intros E.
  eapply number_toString_not_option; eauto.
Qed.

(** What the builder adds to the strings of the caller, token by token. *)
Lemma builder_adds tok o :
  tok <> EmptyString -> tok <> "127.0.0.1" ->
  String.get 0 tok = Some "-"%char -> String.get 1 tok = Some "-"%char ->
  occurrences tok (prepareCommandArgs o) =
  occurrences tok ["--bind_ip"]
  + (if JS.truthy JS.truthy_number (port o) then occurrences tok ["--port"] else 0)
  + (if JS.truthy JS.truthy_string (storageEngine o) then occurrences tok ["--storageEngine"] else 0)
  + (if JS.truthy JS.truthy_string (dbPath o) then occurrences tok ["--dbpath"] else 0)
  + (if JS.truthy id (auth o) then occurrences tok ["--auth"] else occurrences tok ["--noauth"])
  + (if JS.truthy JS.truthy_string (replSet o) then occurrences tok ["--replSet"] else 0)
  + occurrences tok (supplied o).
Proof.
  intros Hne Hip H0 H1. unfold prepareCommandArgs, supplied.
  rewrite !occurrences_app, occurrences_push by assumption.
  assert (forall l, occurrences tok
            (if JS.truthy id (auth o) then l ++ ["--auth"] else l ++ ["--noauth"])
          = occurrences tok l
            + (if JS.truthy id (auth o) then occurrences tok ["--auth"]
               else occurrences tok ["--noauth"])) as ->.
  { intros l. destruct (JS.truthy id (auth o)); apply occurrences_app. }
  rewrite !occurrences_push by assumption.
  assert (forall l, occurrences tok
            match port o with
            | Some n => if JS.truthy_number n then l ++ ["--port"; JS.number_toString n] else l
            | None => l
            end
          = occurrences tok l
            + (if JS.truthy JS.truthy_number (port o) then occurrences tok ["--port"] else 0)) as ->.
  { intros l. destruct (port o) as [n|]; cbn [JS.truthy]; [|lia].
    destruct (JS.truthy_number n); [|lia].
    rewrite occurrences_app, occurrences_cons2, occurrences_number by assumption. lia. }
  cbn [app]. rewrite occurrences_cons2, occurrences_or_else by assumption. lia.
Qed.

Lemma occurrences_In tok l : occurrences tok l = 0 <-> ~ In tok l.
Proof.
  induction l as [|x l IH]; cbn [occurrences In]; [tauto|].
  destruct (String.eqb_spec x tok) as [E|E].
  - split; [discriminate | intros H; exfalso; apply H; left; exact E].
  - cbn [Nat.add]. rewrite IH. tauto.
Qed.

Lemma occurrences_pos tok l : 0 < occurrences tok l <-> In tok l.
Proof.
  induction l as [|x l IH]; cbn [occurrences In]; [split; [lia | tauto]|].
  destruct (String.eqb_spec x tok) as [E|E].
  - split; [intros _; left; exact E | lia].
  - cbn [Nat.add]. rewrite IH. tauto.
Qed.

(** C7: the command builder is a total function of the options.  For every
    configuration it emits no [--port] token when the port is unset (or
    falsy), and it emits exactly one of the two authentication tokens:
    [--auth] when the flag is true, [--noauth] otherwise.  What the builder
    emits is told apart from the strings the caller supplies (bind address,
    storage engine, data directory, replica set name, extra arguments), which
    the builder does not inspect, by counting: each of the three tokens
    occurs in the result as often as the builder emits it plus as often as it
    occurs among the caller's strings.  So when no string of the caller is one
    of the three tokens, the result holds no [--port] token for an unset port
    and holds exactly one authentication token, the one the flag asks
    for. *)
Theorem command_builder_tokens (o : MongoInstanceOpts) :
  (JS.truthy JS.truthy_number (port o) = false ->
   occurrences "--port" (prepareCommandArgs o) = occurrences "--port" (supplied o))
  /\ occurrences "--auth" (prepareCommandArgs o)
     = (if JS.truthy id (auth o) then 1 else 0) + occurrences "--auth" (supplied o)
  /\ occurrences "--noauth" (prepareCommandArgs o)
     = (if JS.truthy id (auth o) then 0 else 1) + occurrences "--noauth" (supplied o)
  /\ (JS.truthy JS.truthy_number (port o) = true ->
      occurrences "--port" (prepareCommandArgs o)
      = 1 + occurrences "--port" (supplied o))
  /\ (~ In "--port" (supplied o) -> ~ In "--auth" (supplied o) ->
      ~ In "--noauth" (supplied o) ->
      (JS.truthy JS.truthy_number (port o) = false ->
       ~ In "--port" (prepareCommandArgs o))
      /\ occurrences "--auth" (prepareCommandArgs o)
         + occurrences "--noauth" (prepareCommandArgs o) = 1
      /\ (In "--auth" (prepareCommandArgs o) <-> JS.truthy id (auth o) = true)
      /\ (In "--noauth" (prepareCommandArgs o) <-> JS.truthy id (auth o) = false)).
Proof.
  assert (JS.truthy JS.truthy_number (port o) = false ->
          occurrences "--port" (prepareCommandArgs o)
          = occurrences "--port" (supplied o)) as P.
  { intros Hp. rewrite builder_adds by (reflexivity || discriminate).
    rewrite Hp. repeat destruct (JS.truthy _ _); reflexivity. }
  assert (occurrences "--auth" (prepareCommandArgs o)
          = (if JS.truthy id (auth o) then 1 else 0)
            + occurrences "--auth" (supplied o)) as A.
  { rewrite builder_adds by (reflexivity || discriminate).
    repeat destruct (JS.truthy _ _); reflexivity. }
  assert (occurrences "--noauth" (prepareCommandArgs o)
          = (if JS.truthy id (auth o) then 0 else 1)
            + occurrences "--noauth" (supplied o)) as N.
  { rewrite builder_adds by (reflexivity || discriminate).
    repeat destruct (JS.truthy _ _); reflexivity. }
  split; [exact P|]. split; [exact A|]. split; [exact N|]. split.
  - intros Hp. rewrite builder_adds by (reflexivity || discriminate).
    rewrite Hp. repeat destruct (JS.truthy _ _); reflexivity.
  - intros Sp Sa Sn.
    apply occurrences_In in Sp. apply occurrences_In in Sa. apply occurrences_In in Sn.
    rewrite Sa in A. rewrite Sn in N.
    split; [|split; [|split]].
    + intros Hp. apply occurrences_In. rewrite (P Hp). exact Sp.
    + rewrite A, N. destruct (JS.truthy id (auth o)); reflexivity.
    + rewrite <- occurrences_pos, A.
      destruct (JS.truthy id (auth o)); split; intros H;
        try reflexivity; try lia; discriminate H.
    + rewrite <- occurrences_pos, N.
      destruct (JS.truthy id (auth o)); split; intros H;
        try reflexivity; try lia; discriminate H.
Qed.

Lemma command_builder_tokens_witness :
  let o := with_args (Some ["--quiet"]) (with_port (Some (JS.Num 0)) no_opts) in
  occurrences "--port" (prepareCommandArgs o) = occurrences "--port" (supplied o)
  /\ occurrences "--auth" (prepareCommandArgs o)
     + occurrences "--noauth" (prepareCommandArgs o) = 1.
Proof.
  intros o. split.
  - apply (proj1 (command_builder_tokens o)). reflexivity.
  - apply (proj2 (proj2 (proj2 (proj2 (command_builder_tokens o))))).
    + vm_compute. intros [H|[]]. discriminate H.
    + vm_compute. intros [H|[]]. discriminate H.
    + vm_compute. intros [H|[]]. discriminate H.
Defined.

(** The extra arguments are not inspected: option names among them reach the
    result beside the tokens of the builder. *)
Example extra_args_pass_through_ex :
  let o := with_args (Some ["--port"; "27017"; "--auth"]) no_opts in
  port o = None
  /\ supplied o = ["--port"; "27017"; "--auth"]
  /\ prepareCommandArgs o
     = ["--bind_ip"; "127.0.0.1"; "--noauth"; "--port"; "27017"; "--auth"].
Proof.
  cbv zeta. repeat split; reflexivity.
Qed.

(** C9: an absent and an empty bind address both give the loopback
    default [127.0.0.1], and a port of [0] is treated as an unset port: the
    builder adds no [--port] token for it. *)
Theorem falsy_ip_and_port (o : MongoInstanceOpts) :
  prepareCommandArgs (with_ip None o) = prepareCommandArgs (with_ip (Some "127.0.0.1") o)
  /\ prepareCommandArgs (with_ip (Some EmptyString) o) = prepareCommandArgs (with_ip (Some "127.0.0.1") o)
  /\ take 2 (prepareCommandArgs (with_ip (Some EmptyString) o)) = ["--bind_ip"; "127.0.0.1"]
  /\ take 2 (prepareCommandArgs (with_ip None o)) = ["--bind_ip"; "127.0.0.1"]
  /\ prepareCommandArgs (with_port (Some (JS.Num 0)) o) = prepareCommandArgs (with_port None o)
  /\ occurrences "--port" (prepareCommandArgs (with_port (Some (JS.Num 0)) o))
     = occurrences "--port" (supplied o).
Proof.
  assert (forall c, take 2 (prepareCommandArgs c)
                    = ["--bind_ip"; JS.or_else (ip c) "127.0.0.1"]) as Bind.
  { intros [[n|] i [[|? ?]|] [[|? ?]|] [[|? ?]|] xs [[|]|]]; unfold prepareCommandArgs;
      cbn [port ip storageEngine dbPath replSet auth args push_if_truthy
           JS.truthy JS.truthy_string id];
      try destruct (JS.truthy_number n); reflexivity. }
  repeat split; try reflexivity; try apply Bind.
  rewrite builder_adds by (reflexivity || discriminate).
  cbn [with_port port JS.truthy JS.truthy_number Z.eqb negb storageEngine dbPath auth replSet].
  repeat destruct (JS.truthy _ _); reflexivity.
Qed.

End CommandBuilder.

(** ** The output classifier *)

Section Classifier.

(** What the stored failure closure does once [run()] has made [launch]. *)
Lemma instanceFailed_spec err this p :
  launch this = Some p ->
  instanceFailed err this =
  (tt, set_launch (Some (JS.reject err p)) this,
   match killerProcess this with
   | Some killer => [Kill killer SIGTERM]
   | None => []
   end).
Proof.
  intros H. unfold instanceFailed, bind, get. rewrite H.
  destruct (killerProcess this); reflexivity.
Qed.

Lemma instanceFailed_default err this :
  launch this = None -> instanceFailed err this = (tt, this, []).
Proof. intros H. unfold instanceFailed, bind, get. rewrite H. reflexivity. Qed.

Lemma set_launch_same this : set_launch (launch this) this = this.
Proof. destruct this; reflexivity. Qed.

Lemma reject_settled {A E} (e : E) (p : JS.promise A E) :
  JS.settled p = true -> JS.reject e p = p.
Proof. destruct p; [discriminate | reflexivity..]. Qed.

End Classifier.

(** *** The branches of [stdoutHandler], one lemma each *)

Section Branches.
Variables (this : MongoInstance) (line : string).

Lemma set_primaryWaits_same t : set_primaryWaits (primaryWaits t) t = t.
Proof. destruct t; reflexivity. Qed.

Lemma forEach_resolveFn ws t :
  forEach ws (fun w => resolveFn w true) t =
  (tt, set_primaryWaits (resolve_all ws (primaryWaits t)) t,
   map (fun w => ResolveFn w true) ws).
Proof.
  revert t. induction ws as [|w ws IH]; intros t.
  - cbn [forEach resolve_all foldl map]. rewrite set_primaryWaits_same. reflexivity.
  - cbn [forEach resolve_all foldl map]. unfold bind at 1.
    unfold resolveFn at 1. run_method. rewrite IH. destruct t; reflexivity.
Qed.

Lemma stdoutHandler_waiting :
  classify line = Some Waiting ->
  stdoutHandler line this =
  (tt,
   match launch this with
   | Some p => set_launch (Some (JS.resolve tt p)) (set_isInstanceReady true this)
   | None => this
   end,
   [Emit MongoInstanceEvents.instanceSTDOUT [VString line]; Emit MongoInstanceEvents.instanceReady []]).
Proof.
  intros H. classified H. run_method. destruct (launch this); reflexivity.
Qed.

Lemma stdoutHandler_failure m err p :
  classify line = Some m -> failure_of this m = Some err -> launch this = Some p ->
  stdoutHandler line this =
  (tt, set_launch (Some (JS.reject err p)) this,
   Emit MongoInstanceEvents.instanceSTDOUT [VString line] :: killer_signalled this).
Proof.
  intros H F L. classified H.
  all: cbn [failure_of] in F; try discriminate F.
  all: run_method; unfold killer_signalled; rewrite ?L.
  all: try (destruct (isInstanceReady this); [discriminate F|]; cbn [negb]; rewrite ?L).
  all: injection F as <-; destruct (killerProcess this); reflexivity.
Qed.

Lemma stdoutHandler_failure_default m err :
  classify line = Some m -> failure_of this m = Some err -> launch this = None ->
  stdoutHandler line this = (tt, this, [Emit MongoInstanceEvents.instanceSTDOUT [VString line]]).
Proof.
  intros H F L. classified H.
  all: cbn [failure_of] in F; try discriminate F.
  all: run_method; rewrite ?L.
  all: try (destruct (isInstanceReady this); [discriminate F|]; cbn [negb]; rewrite ?L).
  all: reflexivity.
Qed.

Lemma stdoutHandler_shutdown_ready :
  classify line = Some ShuttingDown -> isInstanceReady this = true ->
  stdoutHandler line this = (tt, this, [Emit MongoInstanceEvents.instanceSTDOUT [VString line]]).
Proof.
  intros H R. classified H. run_method. rewrite R. reflexivity.
Qed.

Lemma stdoutHandler_primary :
  classify line = Some Primary ->
  stdoutHandler line this =
  (tt,
   set_primaryWaits
     (resolve_all (waitForPrimaryResolveFns this) (primaryWaits this))
     (set_isInstancePrimary true this),
   Emit MongoInstanceEvents.instanceSTDOUT [VString line] :: Emit MongoInstanceEvents.instancePrimary []
   :: map (fun w => ResolveFn w true) (waitForPrimaryResolveFns this)).
Proof.
  intros H. classified H. run_method. rewrite forEach_resolveFn. reflexivity.
Qed.

Lemma stdoutHandler_member :
  classify line = Some Member ->
  stdoutHandler line this =
  (tt,
   (if String.eqb (default "UNKOWN" (exec_member line)) "PRIMARY" then this
    else set_isInstancePrimary false this),
   [Emit MongoInstanceEvents.instanceSTDOUT [VString line];
    Emit MongoInstanceEvents.instanceState [VString (default "UNKOWN" (exec_member line))]]).
Proof.
  intros H. classified H. run_method.
  destruct (String.eqb _ "PRIMARY"); reflexivity.
Qed.

Lemma stdoutHandler_unmatched :
  classify line = None ->
  stdoutHandler line this = (tt, this, [Emit MongoInstanceEvents.instanceSTDOUT [VString line]]).
Proof.
  intros H. classified H. reflexivity.
Qed.

End Branches.

(** *** Failures *)

Section Failures.

Lemma no_error_event_after_failure this line payload :
  ~ In (Emit MongoInstanceEvents.instanceError payload)
       (Emit MongoInstanceEvents.instanceSTDOUT [VString line] :: killer_signalled this).
Proof.
  unfold killer_signalled. destruct (killerProcess this); cbn [In]; intros H;
    repeat (destruct H as [H|H]; try discriminate H); exact H.
Qed.

Lemma no_kill_in_resolves ws q s :
  ~ In (Kill q s) (map (fun w => ResolveFn w true) ws).
Proof. intros H. apply in_map_iff in H as (w & Hw & _). discriminate Hw. Qed.

Lemma no_error_in_resolves ws payload :
  ~ In (Emit MongoInstanceEvents.instanceError payload) (map (fun w => ResolveFn w true) ws).
Proof. intros H. apply in_map_iff in H as (w & Hw & _). discriminate Hw. Qed.

(** C1 (as amended): every failure the classifier detects goes to the one
    failure closure [instanceFailed] with its message.  With [launch]
    made by [run()], the closure rejects [launch] with that message if it
    is still pending and leaves a settled [launch] as it is, and it sends
    the killer process, if there is one, the default termination signal.
    That is all: the classifier emits no [instanceError] event for any
    line, so besides the raw [instanceSTDOUT] event a failure that comes
    after [launch] has settled is reported on no channel.  A line that
    stands for no failure never rejects [launch] and never signals the
    killer. *)
Theorem instance_failed_funnel this line p :
  launch this = Some p ->
  let r := stdoutHandler line this in
  (forall payload, ~ In (Emit MongoInstanceEvents.instanceError payload) (trace_of r))
  /\ match classify line ≫= failure_of this with
     | Some err =>
         r = (tt, set_launch (Some (JS.reject err p)) this,
              Emit MongoInstanceEvents.instanceSTDOUT [VString line] :: killer_signalled this)
         /\ (JS.settled p = true -> state_of r = this)
     | None =>
         (launch (state_of r) = Some p \/ launch (state_of r) = Some (JS.resolve tt p))
         /\ forall q s, ~ In (Kill q s) (trace_of r)
     end.
Proof.
  intros L r. subst r.
  destruct (classify line) as [m|] eqn:H; cbn [mbind option_bind].
  - destruct (failure_of this m) as [err|] eqn:F.
    + rewrite (stdoutHandler_failure this line m err p H F L).
      cbn [trace_of state_of fst snd]. split; [|split].
      * intros payload. apply no_error_event_after_failure.
      * reflexivity.
      * intros S. rewrite (reject_settled _ _ S), <- L. apply set_launch_same.
    + destruct m; try discriminate F.
      * rewrite (stdoutHandler_waiting this line H), L.
        cbn [trace_of state_of fst snd launch set_launch In].
        split; [|split; [right; reflexivity|]]; intros; intros HH;
          repeat (destruct HH as [HH|HH]; try discriminate HH); exact HH.
      * cbn [failure_of] in F.
        destruct (isInstanceReady this) eqn:R; [|discriminate F].
        rewrite (stdoutHandler_shutdown_ready this line H R).
        cbn [trace_of state_of fst snd In].
        split; [|split; [left; exact L|]]; intros; intros HH;
          repeat (destruct HH as [HH|HH]; try discriminate HH); exact HH.
      * rewrite (stdoutHandler_primary this line H).
        cbn [trace_of state_of fst snd launch set_primaryWaits set_isInstancePrimary In].
        split; [|split; [left; exact L|]]; intros; intros HH;
          repeat (destruct HH as [HH|HH]; try discriminate HH).
        -- eapply no_error_in_resolves; eauto.
        -- eapply no_kill_in_resolves; eauto.
      * rewrite (stdoutHandler_member this line H).
        cbn [trace_of state_of fst snd In].
        split; [|split].
        -- intros; intros HH;
             repeat (destruct HH as [HH|HH]; try discriminate HH); exact HH.
        -- left. destruct (String.eqb _ _); exact L.
        -- intros; intros HH;
             repeat (destruct HH as [HH|HH]; try discriminate HH); exact HH.
  - rewrite (stdoutHandler_unmatched this line H).
    cbn [trace_of state_of fst snd In].
    split; [|split; [left; exact L|]]; intros; intros HH;
      repeat (destruct HH as [HH|HH]; try discriminate HH); exact HH.
Qed.

(** C3 (as amended): a line whose first matching pattern is
    [addr already in use] fails a pending [launch] with the message
    [Port <port> already in use], naming the configured port, and signals
    the killer process.  When [launch] is already settled, as it is after
    readiness, the handle is left as it was; in either case the only event
    emitted is the raw [instanceSTDOUT] one, no [instanceError]. *)
Theorem addr_in_use this line p :
  classify line = Some AddrInUse -> launch this = Some p ->
  let msg := "Port " +:+ JS.template_number (port (instanceOpts this)) +:+ " already in use" in
  let r := stdoutHandler line this in
  (p = JS.Pending -> launch (state_of r) = Some (JS.Rejected msg))
  /\ (JS.settled p = true -> state_of r = this)
  /\ trace_of r = Emit MongoInstanceEvents.instanceSTDOUT [VString line] :: killer_signalled this
  /\ forall payload, ~ In (Emit MongoInstanceEvents.instanceError payload) (trace_of r).
Proof.
  intros H L msg r. subst r.
  rewrite (stdoutHandler_failure this line AddrInUse msg p H eq_refl L).
  cbn [trace_of state_of fst snd]. repeat split.
  - intros ->. reflexivity.
  - intros S. rewrite (reject_settled _ _ S), <- L. apply set_launch_same.
  - intros payload. apply no_error_event_after_failure.
Qed.

(** C6: a line whose first matching pattern is [shutting down with code]
    calls the failure closure, with the message [Mongod shutting down],
    exactly when the instance was not ready; on a ready instance it changes
    nothing and emits only the raw [instanceSTDOUT] event. *)
Theorem shutting_down this line :
  classify line = Some ShuttingDown ->
  let r := stdoutHandler line this in
  (isInstanceReady this = true -> r = (tt, this, [Emit MongoInstanceEvents.instanceSTDOUT [VString line]]))
  /\ (isInstanceReady this = false ->
      r = (emit MongoInstanceEvents.instanceSTDOUT [VString line] ;; instanceFailed "Mongod shutting down") this)
  /\ (launch this = Some JS.Pending ->
      (launch (state_of r) = Some (JS.Rejected "Mongod shutting down")
       <-> isInstanceReady this = false)).
Proof.
  intros H r. subst r. split; [|split].
  - intros R. apply stdoutHandler_shutdown_ready; assumption.
  - intros R. destruct (launch this) as [p|] eqn:L.
    + rewrite (stdoutHandler_failure this line ShuttingDown "Mongod shutting down" p H);
        [| cbn [failure_of]; rewrite R; reflexivity | exact L].
      run_method. rewrite L. unfold killer_signalled.
      destruct (killerProcess this); reflexivity.
    + rewrite (stdoutHandler_failure_default this line ShuttingDown "Mongod shutting down" H);
        [| cbn [failure_of]; rewrite R; reflexivity | exact L].
      run_method. rewrite L. reflexivity.
  - intros L. destruct (isInstanceReady this) eqn:R.
    + rewrite (stdoutHandler_shutdown_ready this line H R).
      cbn [state_of fst snd]. rewrite L. split; intros HH; discriminate HH.
    + rewrite (stdoutHandler_failure this line ShuttingDown "Mongod shutting down" JS.Pending H);
        [| cbn [failure_of]; rewrite R; reflexivity | exact L].
      cbn [state_of fst snd launch set_launch JS.reject]. split; reflexivity.
Qed.

End Failures.

(** ** Primary waiters *)

Section Waiters.

Lemma resolve_idempotent {A E} (a : A) (p : JS.promise A E) :
  JS.resolve a (JS.resolve a p) = JS.resolve a p.
Proof. destruct p; reflexivity. Qed.

Lemma resolve_all_length ws l : length (resolve_all ws l) = length l.
Proof.
  revert l. induction ws as [|a ws IH]; intros l; cbn [resolve_all foldl]; [reflexivity|].
  fold (resolve_all ws (alter (JS.resolve true) a l)). rewrite IH. apply length_alter.
Qed.

Lemma resolve_all_lookup_notin ws l w :
  w ∉ ws -> resolve_all ws l !! w = l !! w.
Proof.
  revert l. induction ws as [|a ws IH]; intros l Hw; cbn [resolve_all foldl]; [reflexivity|].
  fold (resolve_all ws (alter (JS.resolve true) a l)).
  apply not_elem_of_cons in Hw as [Hne Hw].
  rewrite IH by assumption. apply list_lookup_alter_ne. congruence.
Qed.

Lemma resolve_all_lookup_resolved ws l w :
  JS.resolve true <$> (resolve_all ws l !! w) = JS.resolve true <$> (l !! w).
Proof.
  revert l. induction ws as [|a ws IH]; intros l; cbn [resolve_all foldl]; [reflexivity|].
  fold (resolve_all ws (alter (JS.resolve true) a l)). rewrite IH.
  destruct (decide (a = w)) as [->|Hne].
  - rewrite list_lookup_alter_eq. destruct (l !! w); cbn; [|reflexivity].
    rewrite resolve_idempotent. reflexivity.
  - rewrite list_lookup_alter_ne by assumption. reflexivity.
Qed.

Lemma resolve_all_lookup_in ws l w :
  w ∈ ws -> resolve_all ws l !! w = JS.resolve true <$> (l !! w).
Proof.
  revert l. induction ws as [|a ws IH]; intros l Hw; cbn [resolve_all foldl].
  - inversion Hw.
  - fold (resolve_all ws (alter (JS.resolve true) a l)).
    destruct (decide (w ∈ ws)) as [Hin|Hnin].
    + rewrite IH by assumption.
      destruct (decide (a = w)) as [->|Hne].
      * rewrite list_lookup_alter_eq. destruct (l !! w); cbn; [|reflexivity].
        rewrite resolve_idempotent. reflexivity.
      * rewrite list_lookup_alter_ne by assumption. reflexivity.
    + rewrite resolve_all_lookup_notin by assumption.
      apply elem_of_cons in Hw as [->|Hw]; [|contradiction].
      apply list_lookup_alter_eq.
Qed.

(** C5 (as amended): a line whose first matching pattern is the
    primary-election marker sets the primary flag, emits [instancePrimary]
    and then calls every stored resolve function with [true], in the order
    in which the waits were registered, within that one call of the
    handler: every registered wait that was pending is fulfilled with
    [true].  The list of resolve functions is not emptied: it is the same
    list afterwards. *)
Theorem primary_elected this line :
  classify line = Some Primary ->
  let r := stdoutHandler line this in
  isInstancePrimary (state_of r) = true
  /\ trace_of r = Emit MongoInstanceEvents.instanceSTDOUT [VString line] :: Emit MongoInstanceEvents.instancePrimary []
                 :: map (fun w => ResolveFn w true) (waitForPrimaryResolveFns this)
  /\ (forall w, w ∈ waitForPrimaryResolveFns this ->
        primaryWaits this !! w = Some JS.Pending ->
        primaryWaits (state_of r) !! w = Some (JS.Fulfilled true))
  /\ (forall w p, primaryWaits this !! w = Some p -> JS.settled p = true ->
        primaryWaits (state_of r) !! w = Some p)
  /\ (forall w, w ∉ waitForPrimaryResolveFns this ->
        primaryWaits (state_of r) !! w = primaryWaits this !! w)
  /\ waitForPrimaryResolveFns (state_of r) = waitForPrimaryResolveFns this.
Proof.
  intros H r. subst r. rewrite (stdoutHandler_primary this line H).
  cbn [state_of trace_of fst snd]. destruct this as [o c k fns pr rd la ws].
  cbn [isInstancePrimary primaryWaits waitForPrimaryResolveFns
       set_primaryWaits set_isInstancePrimary].
  repeat split.
  - intros w Hin Hp. rewrite resolve_all_lookup_in by assumption. rewrite Hp. reflexivity.
  - intros w p Hp Hs. destruct (decide (w ∈ fns)).
    + rewrite resolve_all_lookup_in by assumption. rewrite Hp.
      destruct p; [discriminate Hs | reflexivity..].
    + rewrite resolve_all_lookup_notin by assumption. exact Hp.
  - intros w Hnin. apply resolve_all_lookup_notin. assumption.
Qed.

End Waiters.

Section WaiterRuns.

Lemma kill_internal_state process name this :
  state_of (kill_internal process name this) = this.
Proof.
  unfold kill_internal. run_method.
  destruct (exits_before timeoutTime (exitAfterSIGINT process)); [reflexivity|].
  destruct (_ || _); reflexivity.
Qed.

Lemma kill_state this : state_of (kill this) = this.
Proof.
  unfold kill. run_method.
  destruct (childProcess this) as [c|].
  - pose proof (kill_internal_state c "childProcess" this) as Hc.
    destruct (kill_internal c "childProcess" this) as [[[u|e] t] tr];
      cbn [state_of fst snd] in Hc; subst t; [|reflexivity].
    destruct (killerProcess this) as [k|]; [|reflexivity].
    pose proof (kill_internal_state k "killerProcess" this) as Hk.
    destruct (kill_internal k "killerProcess" this) as [[[u'|e] t] tr'];
      cbn [state_of fst snd] in Hk; subst t; reflexivity.
  - destruct (killerProcess this) as [k|]; [|reflexivity].
    pose proof (kill_internal_state k "killerProcess" this) as Hk.
    destruct (kill_internal k "killerProcess" this) as [[[u'|e] t] tr'];
      cbn [state_of fst snd] in Hk; subst t; reflexivity.
Qed.

(** Only the primary branch of the classifier touches the waits. *)
Lemma stdoutHandler_waits this line :
  classify line <> Some Primary ->
  primaryWaits (state_of (stdoutHandler line this)) = primaryWaits this
  /\ waitForPrimaryResolveFns (state_of (stdoutHandler line this))
     = waitForPrimaryResolveFns this.
Proof.
  intros Hne. destruct (classify line) as [m|] eqn:H.
  - destruct (failure_of this m) as [err|] eqn:F.
    + destruct (launch this) as [p|] eqn:L.
      * rewrite (stdoutHandler_failure this line m err p H F L). split; reflexivity.
      * rewrite (stdoutHandler_failure_default this line m err H F L). split; reflexivity.
    + destruct m; try discriminate F; try congruence.
      * rewrite (stdoutHandler_waiting this line H).
        destruct (launch this); split; reflexivity.
      * cbn [failure_of] in F. destruct (isInstanceReady this) eqn:R; [|discriminate F].
        rewrite (stdoutHandler_shutdown_ready this line H R). split; reflexivity.
      * rewrite (stdoutHandler_member this line H).
        destruct (String.eqb _ _); split; reflexivity.
  - rewrite (stdoutHandler_unmatched this line H). split; reflexivity.
Qed.

Lemma step_waiter i this w p :
  primaryWaits this !! w = Some p -> w ∈ waitForPrimaryResolveFns this ->
  primaryWaits (state_of (step i this)) !! w
    = Some (if is_primary_line i then JS.resolve true p else p)
  /\ w ∈ waitForPrimaryResolveFns (state_of (step i this)).
Proof.
  intros Hp Hin. destruct i as [m k|line|message|code|err| |]; cbn [step is_primary_line].
  - unfold run, _launchMongod, _launchKiller. run_method.
    destruct (pid m); split; assumption.
  - destruct (classify line) as [[]|] eqn:H.
    10: { rewrite (stdoutHandler_primary this line H).
          cbn [state_of fst snd]. destruct this;
            cbn [primaryWaits waitForPrimaryResolveFns set_primaryWaits
                 set_isInstancePrimary] in *.
          rewrite resolve_all_lookup_in by assumption. rewrite Hp. split; [reflexivity|assumption]. }
    all: destruct (stdoutHandler_waits this line) as [-> ->]; [congruence|split; assumption].
  - split; assumption.
  - split; assumption.
  - unfold errorHandler. run_method.
    destruct (launch this); [destruct (killerProcess this)|]; split; assumption.
  - unfold waitPrimaryReady. run_method.
    destruct (isInstancePrimary this); destruct this; cbn in *.
    + split; [|assumption]. rewrite lookup_app_l; [assumption|].
      eapply lookup_lt_Some; eassumption.
    + split; [|apply elem_of_app; left; assumption]. rewrite lookup_app_l; [assumption|].
      eapply lookup_lt_Some; eassumption.
  - cbv [bind ret]. pose proof (kill_state this) as Hk.
    destruct (kill this) as [[u t] tr]. cbn [state_of fst snd] in *. subst t.
    split; assumption.
Qed.

Lemma feed_cons i inputs this :
  state_of (feed (i :: inputs) this) = state_of (feed inputs (state_of (step i this))).
Proof.
  unfold feed. cbn [forEach]. unfold bind.
  destruct (step i this) as [[u t] tr]. cbn [state_of fst snd].
  destruct (forEach inputs step t) as [[u' t'] tr']. reflexivity.
Qed.

Lemma feed_waiter inputs this w p :
  primaryWaits this !! w = Some p -> w ∈ waitForPrimaryResolveFns this ->
  primaryWaits (state_of (feed inputs this)) !! w
    = Some (if existsb is_primary_line inputs then JS.resolve true p else p).
Proof.
  revert this p. induction inputs as [|i inputs IH]; intros this p Hp Hin.
  - exact Hp.
  - rewrite feed_cons. destruct (step_waiter i this w p Hp Hin) as [Hp' Hin'].
    rewrite (IH _ _ Hp' Hin'). cbn [existsb].
    destruct (is_primary_line i), (existsb is_primary_line inputs); cbn [orb];
      rewrite ?resolve_idempotent; reflexivity.
Qed.

(** C2 (as amended): a primary wait made while the instance is not primary
    is pending and its resolve function is stored.  Whatever happens to the
    handle afterwards (lines on standard output or error, the close and
    error events, further waits, [run()] and [kill()]), the wait is
    fulfilled with [true] if one of the lines was classified as the
    primary-election marker, and is still pending otherwise.  It is never
    rejected or fulfilled with [false]: a failure of the instance and
    [kill()] leave a pending wait pending. *)
Theorem primary_wait_outcome this inputs :
  isInstancePrimary this = false ->
  let r := waitPrimaryReady this in
  let w := result_of r in
  primaryWaits (state_of r) !! w = Some JS.Pending
  /\ w ∈ waitForPrimaryResolveFns (state_of r)
  /\ primaryWaits (state_of (feed inputs (state_of r))) !! w
     = Some (if existsb is_primary_line inputs then JS.Fulfilled true else JS.Pending).
Proof.
  intros Hnp r w.
  assert (primaryWaits (state_of r) !! w = Some JS.Pending
          /\ w ∈ waitForPrimaryResolveFns (state_of r)) as [Hp Hin].
  { subst r w. unfold waitPrimaryReady. run_method. rewrite Hnp.
    destruct this; cbn. split.
    - rewrite lookup_app_r by reflexivity. rewrite Nat.sub_diag. reflexivity.
    - apply elem_of_app. right. apply list_elem_of_singleton. reflexivity. }
  repeat split; try assumption.
  rewrite (feed_waiter inputs _ w JS.Pending Hp Hin).
  destruct (existsb _ _); reflexivity.
Qed.

End WaiterRuns.

(** ** Regular expressions: the matcher against a declarative reading *)

Section RegExpFacts.

Import RegExp.

Lemma chars_app a b : chars (a +:+ b) = chars a ++ chars b.
Proof.
  unfold chars. induction a as [|c a IH]; simpl; [reflexivity | f_equal; exact IH].
Qed.

Lemma star_ext {R} g p (k1 k2 : list ascii -> option R) s :
  (forall t, k1 t = k2 t) -> star g p k1 s = star g p k2 s.
Proof.
  intros E. induction s as [|c s IH]; cbn [star]; [apply E|].
  rewrite IH, (E (c :: s)). reflexivity.
Qed.

Lemma bt_ext {R} i r (k1 k2 : list ascii -> option R) s :
  (forall t, k1 t = k2 t) -> bt i r k1 s = bt i r k2 s.
Proof.
  intros E. revert s. induction r as [|n r IH]; intros s; cbn [bt]; [apply E|].
  destruct n; try (apply star_ext; exact IH).
  - destruct s as [|c s]; [reflexivity|]. rewrite IH. reflexivity.
  - destruct s as [|c s]; [reflexivity|].
    rewrite (star_ext true _ _ _ s IH). reflexivity.
Qed.

(** Matching a concatenation is matching the first part with the
    second as its continuation. *)
Lemma bt_app {R} i r1 r2 (k : list ascii -> option R) s :
  bt i (r1 ++ r2) k s = bt i r1 (bt i r2 k) s.
Proof.
  revert s. induction r1 as [|n r1 IH]; intros s; cbn [bt app]; [reflexivity|].
  destruct n; try (apply star_ext; exact IH).
  - destruct s as [|c s]; [reflexivity|]. rewrite IH. reflexivity.
  - destruct s as [|c s]; [reflexivity|].
    rewrite (star_ext true _ _ _ s IH). reflexivity.
Qed.

Lemma none_iff {R1 R2} : is_Some (@None R1) <-> is_Some (@None R2).
Proof. split; intros [x Hx]; discriminate Hx. Qed.

(** Whether a match is found does not depend on what the continuation
    returns, only on where it succeeds. *)
Lemma star_some_iff {R1 R2} g p (k1 : list ascii -> option R1)
    (k2 : list ascii -> option R2) s :
  (forall t, is_Some (k1 t) <-> is_Some (k2 t)) ->
  is_Some (star g p k1 s) <-> is_Some (star g p k2 s).
Proof.
  intros E. induction s as [|c s IH]; cbn [star]; [apply E|].
  pose proof (E (c :: s)) as Ec.
  destruct (p c); [|exact Ec]. destruct g.
  - destruct (star true p k1 s), (star true p k2 s); try exact Ec;
      rewrite <- ?not_eq_None_Some in *; try (split; intros; congruence);
      exfalso; destruct IH as [I1 I2]; (apply I1 + apply I2); congruence.
  - destruct (k1 (c :: s)), (k2 (c :: s)); try exact IH;
      rewrite <- ?not_eq_None_Some in *; try (split; intros; congruence);
      exfalso; destruct Ec as [I1 I2]; (apply I1 + apply I2); congruence.
Qed.

Lemma bt_some_iff {R1 R2} i r (k1 : list ascii -> option R1)
    (k2 : list ascii -> option R2) s :
  (forall t, is_Some (k1 t) <-> is_Some (k2 t)) ->
  is_Some (bt i r k1 s) <-> is_Some (bt i r k2 s).
Proof.
  intros E. revert s. induction r as [|n r IH]; intros s; cbn [bt]; [apply E|].
  destruct n; try (apply star_some_iff; exact IH).
  - destruct s as [|c s]; [apply none_iff|].
    destruct (atom_matches i a c); [apply IH|apply none_iff].
  - destruct s as [|c s]; [apply none_iff|].
    destruct (atom_matches i a c); [apply star_some_iff; exact IH|apply none_iff].
Qed.

Lemma leftmost_some_iff {R1 R2} (m1 : list ascii -> option R1)
    (m2 : list ascii -> option R2) s :
  (forall t, is_Some (m1 t) <-> is_Some (m2 t)) ->
  is_Some (leftmost m1 s) <-> is_Some (leftmost m2 s).
Proof.
  intros E. induction s as [|c s IH]; cbn [leftmost]; pose proof (E []) as E0.
  - destruct (m1 []), (m2 []); try exact E0; reflexivity.
  - pose proof (E (c :: s)) as Ec.
    destruct (m1 (c :: s)), (m2 (c :: s)); try exact IH;
      rewrite <- ?not_eq_None_Some in *; try (split; intros; congruence);
      exfalso; destruct Ec as [I1 I2]; (apply I1 + apply I2); congruence.
Qed.

Lemma leftmost_found {R} (m : list ascii -> option R) s x :
  leftmost m s = Some x -> exists before t, s = before ++ t /\ m t = Some x.
Proof.
  induction s as [|c s IH]; cbn [leftmost]; intros H.
  - exists [], []. destruct (m []); [split; [reflexivity|exact H] | discriminate H].
  - destruct (m (c :: s)) eqn:Em.
    + exists [], (c :: s). injection H as <-. split; [reflexivity|exact Em].
    + destruct (IH H) as (b & t & -> & Ht). exists (c :: b), t. split; [reflexivity|exact Ht].
Qed.

Lemma leftmost_none {R} (m : list ascii -> option R) s :
  (forall before t, s = before ++ t -> m t = None) -> leftmost m s = None.
Proof.
  intros H. destruct (leftmost m s) eqn:E; [|reflexivity].
  apply leftmost_found in E as (b & t & Hs & Ht). rewrite (H b t Hs) in Ht. discriminate Ht.
Qed.

End RegExpFacts.

Section Soundness.

Import RegExp.

Lemma star_sound {R} g p (k : list ascii -> option R) s x :
  star g p k s = Some x ->
  exists m s', s = m ++ s' /\ Forall (fun c => p c = true) m /\ k s' = Some x.
Proof.
  induction s as [|c s IH]; cbn [star]; intros H.
  - exists [], []. repeat split; [constructor | exact H].
  - destruct (p c) eqn:Pc.
    + assert (star g p k s = Some x \/ k (c :: s) = Some x) as [Hs|Hk].
      { destruct g.
        - destruct (star true p k s); [left; exact H | right; exact H].
        - destruct (k (c :: s)); [right; exact H | left; exact H]. }
      * destruct (IH Hs) as (m & s' & -> & Hm & Hk).
        exists (c :: m), s'. repeat split; [constructor; assumption | exact Hk].
      * exists [], (c :: s). repeat split; [constructor | exact Hk].
    + exists [], (c :: s). repeat split; [constructor | exact H].
Qed.

(** The matcher only finds what the pattern stands for. *)
Lemma bt_sound {R} i r (k : list ascii -> option R) s x :
  bt i r k s = Some x ->
  exists m s', s = m ++ s' /\ matches i r m /\ k s' = Some x.
Proof.
  revert s. induction r as [|n r IH]; intros s; cbn [bt]; intros H.
  - exists [], s. repeat split; [constructor | exact H].
  - destruct n.
    + destruct s as [|c s]; [discriminate H|].
      destruct (atom_matches i a c) eqn:Ac; [|discriminate H].
      destruct (IH _ H) as (m & s' & -> & Hm & Hk).
      exists (c :: m), s'. repeat split; [constructor; assumption | exact Hk].
    + apply star_sound in H as (m1 & s1 & -> & Hm1 & H).
      destruct (IH _ H) as (m & s' & -> & Hm & Hk).
      exists (m1 ++ m), s'. rewrite app_assoc. repeat split; [constructor; assumption | exact Hk].
    + apply star_sound in H as (m1 & s1 & -> & Hm1 & H).
      destruct (IH _ H) as (m & s' & -> & Hm & Hk).
      exists (m1 ++ m), s'. rewrite app_assoc. repeat split; [constructor; assumption | exact Hk].
    + destruct s as [|c s]; [discriminate H|].
      destruct (atom_matches i a c) eqn:Ac; [|discriminate H].
      apply star_sound in H as (m1 & s1 & -> & Hm1 & H).
      destruct (IH _ H) as (m & s' & -> & Hm & Hk).
      exists (c :: m1 ++ m), s'. cbn [app]. rewrite app_assoc.
      repeat split; [constructor; assumption | exact Hk].
Qed.

(** A greedy star in front of a continuation that always succeeds takes
    every character it can. *)
Lemma star_greedy_total {R} p (k : list ascii -> option R) s :
  (forall t, k t <> None) ->
  exists m s', s = m ++ s' /\ Forall (fun c => p c = true) m
    /\ match s' with c :: _ => p c = false | [] => True end
    /\ star true p k s = k s'.
Proof.
  intros T. induction s as [|c s IH]; cbn [star].
  - exists [], []. repeat split; constructor.
  - destruct (p c) eqn:Pc.
    + destruct IH as (m & s' & -> & Hm & Hs' & E).
      exists (c :: m), s'. rewrite E. pose proof (T s') as Ts. destruct (k s'); [|congruence].
      repeat split; [constructor; assumption | assumption].
    + exists [], (c :: s). repeat split; [constructor | assumption].
Qed.

Lemma matches_app_inv i r1 r2 m :
  matches i (r1 ++ r2) m ->
  exists m1 m2, m = m1 ++ m2 /\ matches i r1 m1 /\ matches i r2 m2.
Proof.
  revert m. induction r1 as [|n r1 IH]; intros m H; cbn [app] in H.
  - exists [], m. repeat split; [constructor | exact H].
  - inversion H; subst;
      match goal with
      | Hm : matches i (r1 ++ r2) _ |- _ =>
          destruct (IH _ Hm) as (ma & mb & -> & Ha & Hb)
      end.
    + exists (c :: ma), mb. repeat split; [constructor; assumption | assumption].
    + exists (m1 ++ ma), mb. rewrite app_assoc.
      repeat split; [constructor; assumption | assumption].
    + exists (m1 ++ ma), mb. rewrite app_assoc.
      repeat split; [constructor; assumption | assumption].
    + exists (c :: m1 ++ ma), mb. cbn [app]. rewrite app_assoc.
      repeat split; [constructor; assumption | assumption].
Qed.

Lemma matches_lit_inv s m :
  matches true (lit s) m -> same_ci m (chars s).
Proof.
  unfold lit, same_ci. generalize (chars s) as l. clear s.
  intros l. revert m. induction l as [|x l IH]; intros m H; cbn [map] in H; inversion H; subst.
  - reflexivity.
  - cbn [map]. f_equal; [|apply IH; assumption].
    match goal with
    | Ha : atom_matches true _ _ = true |- _ =>
        cbn [atom_matches cset_matches] in Ha; apply Ascii.eqb_eq in Ha; congruence
    end.
Qed.

End Soundness.

(** ** The member-state-change pattern *)

Section MemberPattern.

Import RegExp.

Lemma addr_class_spec c : atom_matches true addr_class c = is_addr_char c.
Proof. destruct c as [[] [] [] [] [] [] [] []]; reflexivity. Qed.

Lemma space_atom_spec c : atom_matches true (Single (Chr " ")) c = is_space c.
Proof. destruct c as [[] [] [] [] [] [] [] []]; reflexivity. Qed.

Lemma letter_not_addr_char c : is_letter c = true -> is_addr_char c = false.
Proof. destruct c as [[] [] [] [] [] [] [] []]; vm_compute; congruence. Qed.

Lemma addr_char_not_space c : is_addr_char c = true -> is_space c = false.
Proof. destruct c as [[] [] [] [] [] [] [] []]; vm_compute; congruence. Qed.

Lemma letter_not_space c : is_letter c = true -> is_space c = false.
Proof. destruct c as [[] [] [] [] [] [] [] []]; vm_compute; congruence. Qed.

(** When [test] accepts a line, [exec] on the same pattern finds a
    match: the fallback of [?? 'UNKOWN'] is never taken. *)
Lemma test_member_exec line :
  RegExp.test re_member line = true -> exists state, exec_member line = Some state.
Proof.
  unfold RegExp.test, exec_member, exec1. cbn [ignoreCase source re_member].
  intros H.
  assert (is_Some (leftmost (bt true (member_prefix ++ member_group) (fun _ => Some tt))
                     (chars line))) as S.
  { destruct (leftmost _ _); [eexists; reflexivity | discriminate H]. }
  eapply leftmost_some_iff in S.
  - destruct S as [state Hs]. exists state. exact Hs.
  - intros t. rewrite bt_app. symmetry. apply bt_some_iff.
    intros t1. apply bt_some_iff. intros t2. split; intros _; eexists; reflexivity.
Qed.

(** What [exec] extracts: the word after the first part of the line that
    reads [member <addr> is now in state ], where [<addr>] is made of
    digits, dots and colons; the word is taken whole. *)
Lemma exec_member_found line state :
  exec_member line = Some state ->
  exists before kw1 addr kw2 after,
    chars line = before ++ kw1 ++ addr ++ kw2 ++ chars state ++ after
    /\ same_ci kw1 (chars "member ")
    /\ addr <> [] /\ Forall (fun c => is_addr_char c = true) addr
    /\ same_ci kw2 (chars " is now in state ")
    /\ state <> EmptyString /\ Forall (fun c => is_word c = true) (chars state)
    /\ match after with c :: _ => is_word c = false | [] => True end.
Proof.
  unfold exec_member, exec1. intros H.
  apply leftmost_found in H as (before & t & Hline & H).
  apply bt_sound in H as (m & s1 & -> & Hm & H).
  unfold member_prefix in Hm.
  apply matches_app_inv in Hm as (kw1 & m' & -> & Hkw1 & Hm).
  apply matches_app_inv in Hm as (addr & kw2 & -> & Haddr & Hkw2).
  apply matches_lit_inv in Hkw1. apply matches_lit_inv in Hkw2.
  inversion Haddr as [| | | |a r c m1 m2 Hc Hm1 Hnil]; subst.
  inversion Hnil; subst. rewrite app_nil_r in *.
  unfold member_group in H. cbn [bt] in H.
  destruct s1 as [|w s1]; [discriminate H|].
  destruct (atom_matches true (Single Word) w) eqn:Hw; [|discriminate H].
  destruct (star_greedy_total (atom_matches true (Single Word))
              (fun s2 => Some (string_of_list_ascii
                                 (take (length (w :: s1) - length s2) (w :: s1))))
              s1) as (ws & after & -> & Hws & Hafter & E); [discriminate|].
  rewrite E in H.
  assert (take (length (w :: ws ++ after) - length after) (w :: ws ++ after) = w :: ws) as T.
  { replace (length (w :: ws ++ after) - length after) with (length (w :: ws))
      by (cbn [length]; rewrite length_app; lia).
    apply (take_app_length (w :: ws) after). }
  rewrite T in H. injection H as <-.
  exists before, kw1, (c :: m1), kw2, after.
  change (chars (String w (string_of_list_ascii ws)))
    with (w :: list_ascii_of_string (string_of_list_ascii ws)).
  rewrite list_ascii_of_string_of_list_ascii.
  repeat split; try assumption.
  - rewrite Hline. rewrite <- !app_assoc. reflexivity.
  - discriminate.
  - constructor; [rewrite <- addr_class_spec; exact Hc|].
    eapply Forall_impl; [exact Hm1|]. intros x Hx. rewrite <- addr_class_spec. exact Hx.
  - discriminate.
  - constructor; [exact Hw | exact Hws].
Qed.

End MemberPattern.

Section MemberLines.

Import RegExp.

Lemma classify_test line m :
  classify line = Some m -> RegExp.test (pattern_of m) line = true.
Proof.
  unfold classify. intros H. apply find_some in H as [_ H]. exact H.
Qed.

(** C8: on a line whose first matching pattern is the member-state-change
    one, the word that follows [member <addr> is now in state ] is
    extracted (the extraction never fails there, so the fallback value is
    never used) and delivered in an [instanceState] event; the primary flag
    is cleared exactly when that word is not [PRIMARY], and is left as it
    was otherwise. *)
Theorem member_state_change this line :
  classify line = Some Member ->
  exists state,
    exec_member line = Some state
    /\ stdoutHandler line this =
       (tt,
        (if String.eqb state "PRIMARY" then this else set_isInstancePrimary false this),
        [Emit MongoInstanceEvents.instanceSTDOUT [VString line]; Emit MongoInstanceEvents.instanceState [VString state]])
    /\ isInstancePrimary (state_of (stdoutHandler line this))
       = isInstancePrimary this && String.eqb state "PRIMARY"
    /\ exists before kw1 addr kw2 after,
         chars line = before ++ kw1 ++ addr ++ kw2 ++ chars state ++ after
         /\ same_ci kw1 (chars "member ")
         /\ addr <> [] /\ Forall (fun c => is_addr_char c = true) addr
         /\ same_ci kw2 (chars " is now in state ")
         /\ state <> EmptyString /\ Forall (fun c => is_word c = true) (chars state)
         /\ match after with c :: _ => is_word c = false | [] => True end.
Proof.
  intros H. pose proof (classify_test line Member H) as T.
  destruct (test_member_exec line T) as [state E]. exists state.
  rewrite (stdoutHandler_member this line H), E.
  change (default "UNKOWN" (Some state)) with state. cbn [state_of fst snd].
  repeat split.
  - destruct (String.eqb state "PRIMARY"), this as [o c k fns [] rd la ws]; reflexivity.
  - apply exec_member_found. exact E.
Qed.

Lemma spaces_app a b : spaces (a ++ b) = spaces a + spaces b.
Proof. induction a as [|c a IH]; cbn [spaces app]; [reflexivity | rewrite IH; lia]. Qed.

Lemma spaces_forall l :
  Forall (fun c => is_space c = false) l -> spaces l = 0.
Proof.
  induction 1 as [|c l Hc _ IH]; cbn [spaces]; [reflexivity | rewrite Hc, IH; reflexivity].
Qed.

Lemma spaces_zero l : spaces l = 0 -> Forall (fun c => is_space c = false) l.
Proof.
  induction l as [|c l IH]; cbn [spaces]; intros H; constructor.
  - destruct (is_space c); [discriminate H | reflexivity].
  - apply IH. destruct (is_space c); [discriminate H | exact H].
Qed.

(** A match holds at least the spaces the pattern spells out. *)
Lemma matches_spaces r m : matches true r m -> spaces_needed r <= spaces m.
Proof.
  induction 1 as [|a r c m Ha _ IH|a r m1 m2 _ _ IH|a r m1 m2 _ _ IH|a r c m1 m2 _ _ _ IH];
    cbn [spaces_needed spaces]; rewrite ?spaces_app; try lia.
  destruct a as [[c0| | |]|l]; try lia.
  destruct (is_space c0) eqn:S0; [|lia].
  apply Ascii.eqb_eq in S0. subst c0. rewrite space_atom_spec in Ha. rewrite Ha. lia.
Qed.

Lemma leftmost_needs_spaces {R} r (k : list ascii -> option R) s x :
  leftmost (bt true r k) s = Some x -> spaces_needed r <= spaces s.
Proof.
  intros H. apply leftmost_found in H as (before & t & -> & H).
  apply bt_sound in H as (m & s' & -> & Hm & _).
  apply matches_spaces in Hm. rewrite !spaces_app. lia.
Qed.

Lemma test_needs_spaces re line :
  ignoreCase re = true -> RegExp.test re line = true ->
  spaces_needed (source re) <= spaces (chars line).
Proof.
  unfold RegExp.test. intros -> H.
  destruct (leftmost _ _) as [[]|] eqn:E; [|discriminate H].
  eapply leftmost_needs_spaces. exact E.
Qed.

Lemma first_outside (p : ascii -> bool) l :
  Exists (fun c => p c = false) l ->
  exists a1 c0 a2, l = a1 ++ c0 :: a2 /\ Forall (fun c => p c = true) a1 /\ p c0 = false.
Proof.
  induction l as [|c l IH]; intros H; [inversion H|].
  destruct (p c) eqn:Pc.
  - inversion H as [? ? Hc|? ? Hl]; subst; [congruence|].
    destruct (IH Hl) as (a1 & c0 & a2 & -> & Ha1 & Hc0).
    exists (c :: a1), c0, a2. repeat split; [constructor; assumption | assumption].
  - exists [], c, l. repeat split; [constructor | assumption].
Qed.

(** A greedy star cannot get past a character that neither belongs to
    its class nor is accepted by what follows. *)
Lemma star_blocked {R} p (K : list ascii -> option R) a1 c0 rest :
  (forall c s, is_space c = false -> K (c :: s) = None) ->
  Forall (fun c => p c = true /\ is_space c = false) a1 ->
  p c0 = false -> is_space c0 = false ->
  star true p K (a1 ++ c0 :: rest) = None.
Proof.
  intros HK Ha1 Hp Hs. induction Ha1 as [|c a1 [Hc Hcs] _ IH]; cbn [star app].
  - rewrite Hp. apply HK. exact Hs.
  - rewrite Hc, IH. apply HK. exact Hcs.
Qed.

Lemma member_line_chars addr state :
  chars (member_line addr state)
  = chars "member " ++ chars addr ++ chars " is now in state " ++ chars state.
Proof. unfold member_line. rewrite !chars_app. reflexivity. Qed.

Lemma member_line_spaces addr state :
  spaces (chars addr) = 0 -> spaces (chars state) = 0 ->
  spaces (chars (member_line addr state)) = 6.
Proof.
  intros Ha Hs. rewrite member_line_chars, !spaces_app, Ha, Hs. reflexivity.
Qed.

Lemma leftmost_skip {R} (m : list ascii -> option R) c s :
  m (c :: s) = None -> leftmost m (c :: s) = leftmost m s.
Proof. intros H. cbn [leftmost]. rewrite H. reflexivity. Qed.

(** The pattern finds nothing in [member <addr> is now in state <state>]
    when [<addr>] holds a character outside digits, dots and colons. *)
Lemma member_line_no_match addr state :
  spaces (chars addr) = 0 -> spaces (chars state) = 0 ->
  Exists (fun c => is_addr_char c = false) (chars addr) ->
  RegExp.test re_member (member_line addr state) = false.
Proof.
  intros Ha Hs Hex. unfold RegExp.test. cbn [ignoreCase source re_member].
  rewrite member_line_chars.
  set (k := fun _ : list ascii => Some tt).
  set (rest := chars " is now in state " ++ chars state).
  assert (leftmost (bt true (member_prefix ++ member_group) k) (chars addr ++ rest) = None) as Tail.
  { destruct (leftmost _ _) eqn:E; [|reflexivity].
    apply leftmost_needs_spaces in E. subst rest.
    rewrite !spaces_app, Ha, Hs in E. vm_compute in E. lia. }
  assert (bt true (member_prefix ++ member_group) k (chars "member " ++ chars addr ++ rest) = None) as Head.
  { change (bt true (member_prefix ++ member_group) k (chars "member " ++ chars addr ++ rest))
      with (bt true (Plus addr_class :: lit " is now in state " ++ member_group) k
              (chars addr ++ rest)).
    destruct (first_outside _ _ Hex) as (a1 & c0 & a2 & Eaddr & Ha1 & Hc0).
    rewrite Eaddr in *. clear Eaddr.
    rewrite spaces_app in Ha. cbn [spaces] in Ha.
    assert (is_space c0 = false) as Hc0s by (destruct (is_space c0); [lia | reflexivity]).
    assert (Forall (fun c => is_space c = false) a1) as Ha1s by (apply spaces_zero; lia).
    assert (forall c s, is_space c = false ->
              bt true (lit " is now in state " ++ member_group) k (c :: s) = None) as HK.
    { intros c s Hc. cbn [lit chars list_ascii_of_string map app bt].
      rewrite space_atom_spec, Hc. reflexivity. }
    rewrite <- app_assoc. cbn [bt].
    destruct a1 as [|x a1]; cbn [app].
    - rewrite addr_class_spec, Hc0. reflexivity.
    - inversion Ha1; subst. inversion Ha1s; subst.
      rewrite addr_class_spec. replace (is_addr_char x) with true by congruence.
      apply star_blocked; try assumption.
      + apply Forall_forall. intros c Hc. rewrite addr_class_spec. split.
        * eapply Forall_forall in H2; eauto.
        * eapply Forall_forall in H4; eauto.
      + rewrite addr_class_spec. exact Hc0. }
  cbn [chars list_ascii_of_string app] in Head |- *.
  rewrite leftmost_skip by exact Head.
  do 6 (rewrite leftmost_skip by reflexivity).
  rewrite Tail. reflexivity.
Qed.

End MemberLines.

Section HostnameLines.

Import RegExp.

Lemma stdoutHandler_primary_flag this line :
  classify line <> Some Primary -> classify line <> Some Member ->
  isInstancePrimary (state_of (stdoutHandler line this)) = isInstancePrimary this
  /\ forall payload, ~ In (Emit MongoInstanceEvents.instanceState payload) (trace_of (stdoutHandler line this)).
Proof.
  intros Hp Hm. destruct (classify line) as [m|] eqn:H.
  - destruct (failure_of this m) as [err|] eqn:F.
    + destruct (launch this) as [p|] eqn:L.
      * rewrite (stdoutHandler_failure this line m err p H F L).
        split; [reflexivity|]. intros payload. cbn [trace_of snd]. unfold killer_signalled.
        destruct (killerProcess this); intros HH;
          repeat (destruct HH as [HH|HH]; try discriminate HH); exact HH.
      * rewrite (stdoutHandler_failure_default this line m err H F L).
        split; [reflexivity|]. intros payload HH.
        repeat (destruct HH as [HH|HH]; try discriminate HH); exact HH.
    + destruct m; try discriminate F; try congruence.
      * rewrite (stdoutHandler_waiting this line H).
        split; [destruct (launch this); reflexivity|]. intros payload HH.
        repeat (destruct HH as [HH|HH]; try discriminate HH); exact HH.
      * cbn [failure_of] in F. destruct (isInstanceReady this) eqn:R; [|discriminate F].
        rewrite (stdoutHandler_shutdown_ready this line H R).
        split; [reflexivity|]. intros payload HH.
        repeat (destruct HH as [HH|HH]; try discriminate HH); exact HH.
  - rewrite (stdoutHandler_unmatched this line H).
    split; [reflexivity|]. intros payload HH.
    repeat (destruct HH as [HH|HH]; try discriminate HH); exact HH.
Qed.

(** C10: the member-state-change pattern accepts only member addresses
    made of digits, dots and colons: whatever it matches reads
    [member <addr> is now in state ] with such an address.  A line the
    pattern does not match emits no [instanceState] event and never clears
    the primary flag.  In particular, on a line
    [member <addr> is now in state <state>] whose address holds a letter
    (address and state without spaces) the pattern does not match, no
    [instanceState] event is emitted and the primary flag is left as it
    was. *)
Theorem hostname_member_line this addr state :
  spaces (chars addr) = 0 -> spaces (chars state) = 0 ->
  Exists (fun c => is_letter c = true) (chars addr) ->
  let line := member_line addr state in
  let r := stdoutHandler line this in
  (forall l, RegExp.test re_member l = true ->
     exists before kw1 a kw2 after,
       chars l = before ++ kw1 ++ a ++ kw2 ++ after
       /\ same_ci kw1 (chars "member ")
       /\ a <> [] /\ Forall (fun c => is_addr_char c = true) a
       /\ same_ci kw2 (chars " is now in state "))
  /\ (forall l, RegExp.test re_member l = false ->
        (forall payload,
           ~ In (Emit MongoInstanceEvents.instanceState payload)
                (trace_of (stdoutHandler l this)))
        /\ isInstancePrimary (state_of (stdoutHandler l this))
           = isInstancePrimary this || is_primary_line (Stdout l))
  /\ RegExp.test re_member line = false
  /\ (forall payload, ~ In (Emit MongoInstanceEvents.instanceState payload) (trace_of r))
  /\ isInstancePrimary (state_of r) = isInstancePrimary this.
Proof.
  intros Ha Hs Hl line r. subst r.
  assert (RegExp.test re_member line = false) as Tm.
  { apply member_line_no_match; try assumption.
    eapply Exists_impl; [exact Hl|]. intros c Hc. apply letter_not_addr_char. exact Hc. }
  assert (RegExp.test re_primary line = false) as Tp.
  { destruct (RegExp.test re_primary line) eqn:E; [|reflexivity].
    apply test_needs_spaces in E; [|reflexivity].
    subst line. rewrite member_line_spaces in E by assumption.
    vm_compute in E. lia. }
  assert (classify line <> Some Primary) as Np.
  { intros H. apply classify_test in H. cbn [pattern_of] in H. congruence. }
  assert (classify line <> Some Member) as Nm.
  { intros H. apply classify_test in H. cbn [pattern_of] in H. congruence. }
  destruct (stdoutHandler_primary_flag this line Np Nm) as [Hflag Hev].
  split; [|split; [|repeat split; assumption]].
  - intros l Tl. destruct (test_member_exec l Tl) as [st E].
    apply exec_member_found in E
      as (before & kw1 & a & kw2 & after & El & K1 & Ne & Fa & K2 & _).
    exists before, kw1, a, kw2, (chars st ++ after). repeat split; assumption.
  - intros l Tl.
    assert (classify l <> Some Member) as Nl.
    { intros H. apply classify_test in H. cbn [pattern_of] in H. congruence. }
    cbn [is_primary_line]. destruct (classify l) as [m|] eqn:Cl.
    + destruct (decide (m = Primary)) as [->|Nlp].
      * rewrite (stdoutHandler_primary this l Cl). cbn [state_of trace_of fst snd].
        split.
        -- intros payload HH. repeat (destruct HH as [HH|HH]; try discriminate HH).
           apply in_map_iff in HH as (w & Hw & _). discriminate Hw.
        -- rewrite orb_true_r. destruct this; reflexivity.
      * assert (classify l <> Some Primary) as Nl' by congruence.
        destruct (stdoutHandler_primary_flag this l) as [F E]; try congruence.
        split; [exact E|]. rewrite F. destruct m; try congruence; rewrite orb_false_r; reflexivity.
    + destruct (stdoutHandler_primary_flag this l) as [F E]; try congruence.
      split; [exact E|]. rewrite F, orb_false_r. reflexivity.
Qed.

End HostnameLines.

(** ** Shutdown *)

Section Shutdown.

Lemma kill_internal_spec process name this :
  kill_internal process name this =
  (if stuck process then Thrown stuck_error else Returned tt, this, escalation (Some process)).
Proof.
  unfold kill_internal, escalation, stuck, exits_on_SIGINT. run_method.
  destruct (exits_before timeoutTime (exitAfterSIGINT process)) eqn:E1.
  - assert (exits_before (timeoutTime + timeoutTime) (exitAfterSIGINT process) = true) as ->.
    { unfold exits_before in *. destruct (exitAfterSIGINT process) as [d|]; [|discriminate E1].
      apply N.ltb_lt in E1. apply N.ltb_lt. unfold timeoutTime in *. lia. }
    rewrite andb_false_r. reflexivity.
  - destruct (exits_before timeoutTime (exitAfterSIGKILL process)),
             (exits_before (timeoutTime + timeoutTime) (exitAfterSIGINT process));
      reflexivity.
Qed.

(** C4 (as amended): [kill()] deals with the server process first and
    with the killer process second, and skips a process that was never
    started.  Each process is sent [SIGINT]; if it has not exited within
    10 seconds it is sent [SIGKILL]; if it has not exited within another
    10 seconds [kill()] fails, with the one message
    [Process didnt exit, enable debug for more information.] for either
    process, and a killer process whose turn has not come is not
    signalled.  The handle itself is left as it was. *)
Theorem kill_escalation this :
  timeoutTime = 10000%N
  /\ kill this =
     (if is_stuck (childProcess this) || is_stuck (killerProcess this)
      then Thrown stuck_error else Returned tt,
      this,
      escalation (childProcess this)
      ++ (if is_stuck (childProcess this) then [] else escalation (killerProcess this))).
Proof.
  split; [reflexivity|].
  unfold kill. cbv [bind get ret].
  destruct (childProcess this) as [c|], (killerProcess this) as [k|];
    rewrite ?kill_internal_spec; cbn [is_stuck];
    repeat (destruct (stuck _); cbn [orb app escalation]; rewrite ?kill_internal_spec);
    rewrite ?app_nil_r; reflexivity.
Qed.

End Shutdown.

(** ** The theorems on concrete handles *)

Section Witnesses.

Lemma instance_failed_funnel_witness :
  stdoutHandler line_addr_in_use launching =
  (tt, set_launch (Some (JS.Rejected "Port 27017 already in use")) launching,
   [Emit MongoInstanceEvents.instanceSTDOUT [VString line_addr_in_use]; Kill example_killer SIGTERM]).
Proof.
  exact (proj1 (proj2 (instance_failed_funnel launching line_addr_in_use JS.Pending eq_refl))).
Defined.

Lemma primary_wait_outcome_witness :
  primaryWaits
    (state_of (feed [Stdout line_member; Stdout line_primary; Shutdown]
                 (state_of (waitPrimaryReady ready)))) !! 0
  = Some (JS.Fulfilled true).
Proof.
  exact (proj2 (proj2 (primary_wait_outcome ready
                         [Stdout line_member; Stdout line_primary; Shutdown] eq_refl))).
Defined.

Lemma addr_in_use_witness :
  launch (state_of (stdoutHandler line_addr_in_use launching))
  = Some (JS.Rejected "Port 27017 already in use").
Proof.
  exact (proj1 (addr_in_use launching line_addr_in_use JS.Pending eq_refl eq_refl) eq_refl).
Defined.

Lemma primary_elected_witness :
  trace_of (stdoutHandler line_primary two_waits)
  = [Emit MongoInstanceEvents.instanceSTDOUT [VString line_primary]; Emit MongoInstanceEvents.instancePrimary [];
     ResolveFn 0 true; ResolveFn 1 true].
Proof.
  exact (proj1 (proj2 (primary_elected two_waits line_primary eq_refl))).
Defined.

Lemma shutting_down_witness :
  stdoutHandler line_shutting_down ready
  = (tt, ready, [Emit MongoInstanceEvents.instanceSTDOUT [VString line_shutting_down]]).
Proof.
  exact (proj1 (shutting_down ready line_shutting_down eq_refl) eq_refl).
Defined.

Lemma member_state_change_witness :
  exists state,
    exec_member line_member = Some state
    /\ isInstancePrimary (state_of (stdoutHandler line_member ready))
       = isInstancePrimary ready && String.eqb state "PRIMARY".
Proof.
  destruct (member_state_change ready line_member eq_refl) as (state & E & _ & F & _).
  exists state. split; [exact E | exact F].
Defined.

Lemma hostname_member_line_witness :
  RegExp.test re_member (member_line "localhost:27017" "SECONDARY") = false.
Proof.
  refine (proj1 (proj2 (proj2 (hostname_member_line ready "localhost:27017" "SECONDARY"
                                 eq_refl eq_refl _)))).
  unfold RegExp.chars; cbn [list_ascii_of_string].
  apply Exists_cons_hd. reflexivity.
Defined.

End Witnesses.

(** ** Where the code departs from the specification *)

Section Counterexamples.

(** C1 as stated fails: a failure detected before [launch] settled, and the
    same failure after it settled, emit no [instanceError] event; the
    second one leaves the handle as it was. *)
Lemma instance_failed_funnel_counterexample :
  classify line_addr_in_use = Some AddrInUse
  /\ launch launching = Some JS.Pending
  /\ trace_of (stdoutHandler line_addr_in_use launching)
     = [Emit MongoInstanceEvents.instanceSTDOUT [VString line_addr_in_use]; Kill example_killer SIGTERM]
  /\ launch ready = Some (JS.Fulfilled tt)
  /\ stdoutHandler line_addr_in_use ready
     = (tt, ready,
        [Emit MongoInstanceEvents.instanceSTDOUT [VString line_addr_in_use]; Kill example_killer SIGTERM])
  /\ ~ In (Emit MongoInstanceEvents.instanceError [VString "Port 27017 already in use"])
         (trace_of (stdoutHandler line_addr_in_use ready)).
Proof.
  repeat split; try reflexivity.
  intros H. vm_compute in H. repeat (destruct H as [H|H]; try discriminate H). exact H.
Qed.

(** C2 as stated fails: a wait registered before the instance failed, or
    before it was torn down, is still pending afterwards. *)
Lemma primary_wait_outcome_counterexample :
  (let this := state_of (feed [WaitPrimary; Stdout line_addr_in_use; Close 48; Shutdown]
                           launching) in
   launch this = Some (JS.Rejected "Port 27017 already in use")
   /\ waitForPrimaryResolveFns this = [0]
   /\ primaryWaits this = [JS.Pending])
  /\ (let this := state_of (feed [WaitPrimary; Shutdown; Close 0] ready) in
      waitForPrimaryResolveFns this = [0] /\ primaryWaits this = [JS.Pending]).
Proof. repeat split; reflexivity. Qed.

(** C3 as stated fails: the line [address already in use] is not
    classified at all and leaves [launch] pending, and the line the
    pattern does match emits no [instanceError] event after readiness. *)
Lemma addr_in_use_counterexample :
  classify "address already in use" = None
  /\ launch launching = Some JS.Pending
  /\ stdoutHandler "address already in use" launching
     = (tt, launching, [Emit MongoInstanceEvents.instanceSTDOUT [VString "address already in use"]])
  /\ trace_of (stdoutHandler line_addr_in_use ready)
     = [Emit MongoInstanceEvents.instanceSTDOUT [VString line_addr_in_use]; Kill example_killer SIGTERM].
Proof. repeat split; reflexivity. Qed.

(** C4 as stated fails: the error is the same whether the server process
    or the killer process is the one that does not exit. *)
Lemma kill_escalation_counterexample :
  let server_stuck :=
    set_killerProcess (Some example_killer)
      (set_childProcess (Some (stuck_process 7)) (new example_opts)) in
  let killer_stuck :=
    set_killerProcess (Some (stuck_process 8))
      (set_childProcess (Some example_mongod) (new example_opts)) in
  result_of (kill server_stuck) = Thrown stuck_error
  /\ result_of (kill killer_stuck) = Thrown stuck_error
  /\ trace_of (kill server_stuck)
     = [Kill (stuck_process 7) SIGINT; Kill (stuck_process 7) SIGKILL]
  /\ trace_of (kill killer_stuck)
     = [Kill example_mongod SIGINT;
        Kill (stuck_process 8) SIGINT; Kill (stuck_process 8) SIGKILL].
Proof. repeat split; reflexivity. Qed.

(** C5 as stated fails: the list of resolve functions is as long after the
    primary marker as before, and the next marker calls them again. *)
Lemma primary_elected_counterexample :
  let after := state_of (stdoutHandler line_primary two_waits) in
  waitForPrimaryResolveFns two_waits = [0; 1]
  /\ waitForPrimaryResolveFns after = [0; 1]
  /\ trace_of (stdoutHandler line_primary after)
     = [Emit MongoInstanceEvents.instanceSTDOUT [VString line_primary]; Emit MongoInstanceEvents.instancePrimary [];
        ResolveFn 0 true; ResolveFn 1 true].
Proof. repeat split; reflexivity. Qed.

End Counterexamples.

(** * Further properties *)

(** ** The command builder *)

Section CommandBuilderMore.

Lemma push_if_truthy_app name o l :
  push_if_truthy name o l
  = l ++ (if JS.truthy JS.truthy_string o then [name; default EmptyString o] else []).
Proof.
  destruct o as [[|c v]|]; cbn [push_if_truthy JS.truthy JS.truthy_string];
    rewrite ?app_nil_r; reflexivity.
Qed.

Lemma extra_args_last (o : MongoInstanceOpts) :
  prepareCommandArgs o = prepareCommandArgs (with_args None o) ++ default [] (args o).
Proof.
  unfold prepareCommandArgs. cbn [with_args port ip storageEngine dbPath replSet auth args].
  change (default [] None) with (@nil string). rewrite app_nil_r. reflexivity.
Qed.

(** X1: the result starts with [--bind_ip] and an address that is never
    empty; it ends with the extra arguments as they were given, after tokens
    that do not depend on them; and it holds three tokens of the builder's
    own, two more for each optional setting in use, and the extra
    arguments. *)
Theorem command_shape (o : MongoInstanceOpts) :
  (exists address rest,
     prepareCommandArgs o = "--bind_ip" :: address :: rest /\ address <> EmptyString)
  /\ prepareCommandArgs o
     = prepareCommandArgs (with_args None o) ++ default [] (args o)
  /\ length (prepareCommandArgs o)
     = 3 + 2 * options_in_use o + length (default [] (args o))
  /\ 3 + length (default [] (args o)) <= length (prepareCommandArgs o)
     <= 11 + length (default [] (args o)).
Proof.
  assert (length (prepareCommandArgs o)
          = 3 + 2 * options_in_use o + length (default [] (args o))) as L.
  { unfold prepareCommandArgs, options_in_use. rewrite !push_if_truthy_app.
    destruct (port o) as [n|]; cbn [JS.truthy];
      [destruct (JS.truthy_number n)|];
      destruct (JS.truthy JS.truthy_string (storageEngine o)),
               (JS.truthy JS.truthy_string (dbPath o)),
               (JS.truthy JS.truthy_string (replSet o)),
               (JS.truthy id (auth o));
      rewrite ?length_app; cbn [length app]; lia. }
  split; [|split; [apply extra_args_last|split; [exact L|]]].
  - assert (take 2 (prepareCommandArgs o)
            = ["--bind_ip"; JS.or_else (ip o) "127.0.0.1"]) as Bind.
    { destruct o as [[n|] i [[|? ?]|] [[|? ?]|] [[|? ?]|] xs [[|]|]];
        unfold prepareCommandArgs;
        cbn [port ip storageEngine dbPath replSet auth args push_if_truthy
             JS.truthy JS.truthy_string id];
        try destruct (JS.truthy_number n); reflexivity. }
    destruct (prepareCommandArgs o) as [|x [|y rest]]; try discriminate Bind.
    cbn [take] in Bind. injection Bind as -> ->. eexists _, rest. split; [reflexivity|].
    destruct (ip o) as [[|c v]|]; cbn [JS.or_else JS.truthy_string]; discriminate.
  - rewrite L. unfold options_in_use.
    repeat destruct (JS.truthy _ _); lia.
Qed.

End CommandBuilderMore.

(** ** What the patterns recognise *)

Section Completeness.

Import RegExp.

Lemma star_continue {R} g p (k : list ascii -> option R) s :
  is_Some (k s) -> is_Some (star g p k s).
Proof.
  intros [x Hx]. destruct s as [|c s]; cbn [star]; [eauto|].
  destruct (p c); [|eauto]. destruct g.
  - destruct (star true p k s); eauto.
  - rewrite Hx. eauto.
Qed.

Lemma star_complete {R} g p (k : list ascii -> option R) m rest :
  Forall (fun c => p c = true) m -> is_Some (k rest) ->
  is_Some (star g p k (m ++ rest)).
Proof.
  intros Hm Hk. induction Hm as [|c m Hc _ IH]; cbn [app].
  - apply star_continue. exact Hk.
  - cbn [star]. rewrite Hc. destruct g.
    + destruct IH as [x ->]. eauto.
    + destruct (k (c :: m ++ rest)); eauto.
Qed.

(** The matcher finds whatever the pattern stands for. *)
Lemma bt_complete {R} i r m (k : list ascii -> option R) rest :
  matches i r m -> is_Some (k rest) -> is_Some (bt i r k (m ++ rest)).
Proof.
  intros Hm. revert k rest.
  induction Hm as [|a r c m Ha _ IH|a r m1 m2 H1 _ IH|a r m1 m2 H1 _ IH|a r c m1 m2 Ha H1 _ IH];
    intros k rest Hk; cbn [bt app].
  - exact Hk.
  - rewrite Ha. apply IH. exact Hk.
  - rewrite <- app_assoc. apply star_complete; [exact H1 | apply IH; exact Hk].
  - rewrite <- app_assoc. apply star_complete; [exact H1 | apply IH; exact Hk].
  - rewrite Ha, <- app_assoc. apply star_complete; [exact H1 | apply IH; exact Hk].
Qed.

Lemma leftmost_complete {R} (m : list ascii -> option R) before t :
  is_Some (m t) -> is_Some (leftmost m (before ++ t)).
Proof.
  intros [x Hx]. induction before as [|c before IH]; cbn [app].
  - destruct t; cbn [leftmost]; rewrite Hx; eauto.
  - cbn [leftmost]. destruct (m (c :: before ++ t)); eauto.
Qed.

(** [test] accepts a line exactly when some part of the line is what the
    pattern stands for. *)
Lemma test_spec re line :
  RegExp.test re line = true <->
  exists before m after,
    chars line = before ++ m ++ after /\ matches (ignoreCase re) (source re) m.
Proof.
  unfold RegExp.test. split.
  - intros H. destruct (leftmost _ _) as [[]|] eqn:E; [|discriminate H].
    apply leftmost_found in E as (before & t & Hl & E).
    apply bt_sound in E as (m & after & -> & Hm & _).
    exists before, m, after. split; assumption.
  - intros (before & m & after & -> & Hm).
    assert (is_Some (leftmost (bt (ignoreCase re) (source re) (fun _ => Some tt))
                       (before ++ m ++ after))) as [[] ->]; [|reflexivity].
    apply leftmost_complete. apply bt_complete; [exact Hm | eauto].
Qed.

Lemma matches_lit s m : matches true (lit s) m <-> same_ci m (chars s).
Proof.
  split; [apply matches_lit_inv|].
  unfold lit, same_ci. generalize (chars s) as l. clear s. intros l. revert m.
  induction l as [|x l IH]; intros [|c m] H; cbn [map] in *; try discriminate H.
  - constructor.
  - injection H as Hc Hm. constructor; [|apply IH; exact Hm].
    cbn [atom_matches cset_matches]. apply Ascii.eqb_eq. congruence.
Qed.

(** A pattern of literal characters accepts the lines that contain its
    text, in any case of the letters. *)
Lemma test_literal text line :
  RegExp.test (RegExp.mk (lit text) true) line = true <-> contains_ci line text.
Proof.
  rewrite test_spec. cbn [ignoreCase source]. unfold contains_ci.
  split; intros (before & m & after & Hl & Hm); exists before, m, after;
    (split; [exact Hl | apply matches_lit; exact Hm]).
Qed.

End Completeness.

Section Readiness.

Lemma classify_waiting line :
  classify line = Some Waiting <-> contains_ci line "waiting for connections".
Proof.
  rewrite <- test_literal. change (RegExp.mk _ true) with re_waiting.
  unfold classify, markers. cbn [find pattern_of].
  destruct (RegExp.test re_waiting line); [tauto|].
  split; [|discriminate]. intros H. exfalso.
  repeat match type of H with
         | context [RegExp.test ?re line] =>
             destruct (RegExp.test re line); [discriminate H|]
         end.
  discriminate H.
Qed.

Lemma stdoutHandler_not_waiting this line :
  classify line <> Some Waiting ->
  isInstanceReady (state_of (stdoutHandler line this)) = isInstanceReady this.
Proof.
  intros Hne. destruct (classify line) as [m|] eqn:H.
  - destruct (failure_of this m) as [err|] eqn:F.
    + destruct (launch this) as [p|] eqn:L.
      * rewrite (stdoutHandler_failure this line m err p H F L). reflexivity.
      * rewrite (stdoutHandler_failure_default this line m err H F L). reflexivity.
    + destruct m; try discriminate F; try congruence.
      * cbn [failure_of] in F. destruct (isInstanceReady this) eqn:R; [|discriminate F].
        rewrite (stdoutHandler_shutdown_ready this line H R). exact R.
      * rewrite (stdoutHandler_primary this line H). reflexivity.
      * rewrite (stdoutHandler_member this line H). destruct (String.eqb _ _); reflexivity.
  - rewrite (stdoutHandler_unmatched this line H). reflexivity.
Qed.

(** X2: once [run()] has been called, a chunk of output that contains
    [waiting for connections] anywhere, in any case of the letters, makes
    the handle ready: a pending launch is fulfilled, a settled one is kept,
    and [instanceReady] is emitted, whatever else the chunk contains (the
    text of a failure included).  A chunk without that text leaves the ready
    flag as it was. *)
Theorem ready_marker this line p :
  launch this = Some p ->
  (contains_ci line "waiting for connections" ->
   stdoutHandler line this
   = (tt, set_launch (Some (JS.resolve tt p)) (set_isInstanceReady true this),
      [Emit MongoInstanceEvents.instanceSTDOUT [VString line];
       Emit MongoInstanceEvents.instanceReady []]))
  /\ (~ contains_ci line "waiting for connections" ->
      isInstanceReady (state_of (stdoutHandler line this)) = isInstanceReady this).
Proof.
  intros L. split; intros H.
  - apply classify_waiting in H. rewrite (stdoutHandler_waiting this line H), L. reflexivity.
  - apply stdoutHandler_not_waiting. rewrite classify_waiting. exact H.
Qed.

End Readiness.

Section LetterCase.

Import RegExp.

Lemma canonicalize_idempotent c :
  canonicalize true (canonicalize true c) = canonicalize true c.
Proof. destruct c as [[] [] [] [] [] [] [] []]; reflexivity. Qed.

Lemma cset_canonicalize s c :
  cset_matches true s (canonicalize true c) = cset_matches true s c.
Proof.
  destruct s as [x| | |]; cbn [cset_matches].
  - rewrite canonicalize_idempotent. reflexivity.
  - destruct c as [[] [] [] [] [] [] [] []]; reflexivity.
  - destruct c as [[] [] [] [] [] [] [] []]; reflexivity.
  - destruct c as [[] [] [] [] [] [] [] []]; reflexivity.
Qed.

Lemma atom_canonicalize a c :
  atom_matches true a (canonicalize true c) = atom_matches true a c.
Proof.
  destruct a as [s|l]; cbn [atom_matches]; [apply cset_canonicalize|].
  induction l as [|s l IH]; cbn [existsb]; [reflexivity|].
  rewrite cset_canonicalize, IH. reflexivity.
Qed.

Lemma star_canonicalize {R} g a (k : list ascii -> option R) s :
  star g (atom_matches true a) k (map (canonicalize true) s)
  = star g (atom_matches true a) (fun t => k (map (canonicalize true) t)) s.
Proof.
  induction s as [|c s IH]; cbn [star map]; [reflexivity|].
  rewrite atom_canonicalize, IH. reflexivity.
Qed.

Lemma bt_canonicalize {R} r (k : list ascii -> option R) s :
  bt true r k (map (canonicalize true) s)
  = bt true r (fun t => k (map (canonicalize true) t)) s.
Proof.
  revert s. induction r as [|n r IH]; intros s; cbn [bt]; [reflexivity|].
  destruct n.
  - destruct s as [|c s]; cbn [map]; [reflexivity|].
    rewrite atom_canonicalize, IH. reflexivity.
  - rewrite star_canonicalize. apply star_ext. exact IH.
  - rewrite star_canonicalize. apply star_ext. exact IH.
  - destruct s as [|c s]; cbn [map]; [reflexivity|].
    rewrite atom_canonicalize, star_canonicalize.
    rewrite (star_ext true _ _ _ s IH). reflexivity.
Qed.

Lemma leftmost_ext {R} (m1 m2 : list ascii -> option R) s :
  (forall t, m1 t = m2 t) -> leftmost m1 s = leftmost m2 s.
Proof.
  intros E. induction s as [|c s IH]; cbn [leftmost]; rewrite E; [reflexivity|].
  rewrite IH. reflexivity.
Qed.

Lemma leftmost_canonicalize {R} (m : list ascii -> option R) s :
  leftmost m (map (canonicalize true) s)
  = leftmost (fun t => m (map (canonicalize true) t)) s.
Proof.
  induction s as [|c s IH]; cbn [leftmost map]; [reflexivity|].
  rewrite IH. reflexivity.
Qed.

Lemma test_same_ci re l1 l2 :
  ignoreCase re = true -> same_ci (chars l1) (chars l2) ->
  RegExp.test re l1 = RegExp.test re l2.
Proof.
  intros Hi Hs. unfold RegExp.test. rewrite Hi.
  assert (forall s, leftmost (bt true (source re) (fun _ => Some tt)) s
                    = leftmost (bt true (source re) (fun _ => Some tt))
                        (map (canonicalize true) s)) as C.
  { intros s. rewrite leftmost_canonicalize. apply leftmost_ext.
    intros t. rewrite bt_canonicalize. reflexivity. }
  rewrite (C (chars l1)), (C (chars l2)). unfold same_ci in Hs. rewrite Hs. reflexivity.
Qed.

Lemma classify_same_ci l1 l2 :
  same_ci (chars l1) (chars l2) -> classify l1 = classify l2.
Proof.
  intros Hs. unfold classify, markers. cbn [find pattern_of].
  rewrite !(test_same_ci _ l1 l2) by (reflexivity || exact Hs). reflexivity.
Qed.

(** What a line does to the launch, the ready flag and the waits depends on
    the line only through its classification. *)
Lemma stdoutHandler_by_class this l1 l2 :
  classify l1 = classify l2 ->
  launch (state_of (stdoutHandler l1 this)) = launch (state_of (stdoutHandler l2 this))
  /\ isInstanceReady (state_of (stdoutHandler l1 this))
     = isInstanceReady (state_of (stdoutHandler l2 this))
  /\ primaryWaits (state_of (stdoutHandler l1 this))
     = primaryWaits (state_of (stdoutHandler l2 this)).
Proof.
  intros E. destruct (classify l2) as [m|] eqn:H2.
  - destruct (failure_of this m) as [err|] eqn:F.
    + destruct (launch this) as [p|] eqn:L.
      * rewrite (stdoutHandler_failure this l1 m err p E F L),
                (stdoutHandler_failure this l2 m err p H2 F L). repeat split.
      * rewrite (stdoutHandler_failure_default this l1 m err E F L),
                (stdoutHandler_failure_default this l2 m err H2 F L). repeat split.
    + destruct m; try discriminate F.
      * rewrite (stdoutHandler_waiting this l1 E), (stdoutHandler_waiting this l2 H2).
        repeat split.
      * cbn [failure_of] in F. destruct (isInstanceReady this) eqn:R; [|discriminate F].
        rewrite (stdoutHandler_shutdown_ready this l1 E R),
                (stdoutHandler_shutdown_ready this l2 H2 R). repeat split.
      * rewrite (stdoutHandler_primary this l1 E), (stdoutHandler_primary this l2 H2).
        repeat split.
      * rewrite (stdoutHandler_member this l1 E), (stdoutHandler_member this l2 H2).
        cbn [state_of fst snd]. repeat destruct (String.eqb _ _); repeat split.
  - rewrite (stdoutHandler_unmatched this l1 E), (stdoutHandler_unmatched this l2 H2).
    repeat split.
Qed.

(** X3: two chunks of output that differ only in the case of ASCII letters
    are classified alike, and have the same effect on the launch, on the
    ready flag and on the primary waits. *)
Theorem classification_ignores_case this l1 l2 :
  same_ci (chars l1) (chars l2) ->
  classify l1 = classify l2
  /\ launch (state_of (stdoutHandler l1 this)) = launch (state_of (stdoutHandler l2 this))
  /\ isInstanceReady (state_of (stdoutHandler l1 this))
     = isInstanceReady (state_of (stdoutHandler l2 this))
  /\ primaryWaits (state_of (stdoutHandler l1 this))
     = primaryWaits (state_of (stdoutHandler l2 this)).
Proof.
  intros Hs. pose proof (classify_same_ci l1 l2 Hs) as E.
  split; [exact E | apply stdoutHandler_by_class; exact E].
Qed.

End LetterCase.

(** ** Runs of a handle *)

Section Runs.

Lemma feed_cons_trace i inputs this :
  trace_of (feed (i :: inputs) this)
  = trace_of (step i this) ++ trace_of (feed inputs (state_of (step i this))).
Proof.
  unfold feed. cbn [forEach]. unfold bind.
  destruct (step i this) as [[u t] tr]. cbn [state_of trace_of fst snd].
  destruct (forEach inputs step t) as [[u' t'] tr']. reflexivity.
Qed.

(** [kill()] spelled out, for the proofs below. *)
Lemma kill_unfolded this :
  kill this =
  (if is_stuck (childProcess this) || is_stuck (killerProcess this)
   then Thrown stuck_error else Returned tt,
   this,
   escalation (childProcess this)
   ++ (if is_stuck (childProcess this) then [] else escalation (killerProcess this))).
Proof.
  unfold kill. cbv [bind get ret].
  destruct (childProcess this) as [c|], (killerProcess this) as [k|];
    rewrite ?kill_internal_spec; cbn [is_stuck];
    repeat (destruct (stuck _); cbn [orb app escalation]; rewrite ?kill_internal_spec);
    rewrite ?app_nil_r; reflexivity.
Qed.

(** The classifier never touches the options or the two processes. *)
Lemma stdoutHandler_frame this line :
  let t := state_of (stdoutHandler line this) in
  instanceOpts t = instanceOpts this
  /\ childProcess t = childProcess this
  /\ killerProcess t = killerProcess this.
Proof.
  destruct (classify line) as [m|] eqn:H.
  - destruct (failure_of this m) as [err|] eqn:F.
    + destruct (launch this) as [p|] eqn:L.
      * rewrite (stdoutHandler_failure this line m err p H F L). repeat split.
      * rewrite (stdoutHandler_failure_default this line m err H F L). repeat split.
    + destruct m; try discriminate F.
      * rewrite (stdoutHandler_waiting this line H). destruct (launch this); repeat split.
      * cbn [failure_of] in F. destruct (isInstanceReady this) eqn:R; [|discriminate F].
        rewrite (stdoutHandler_shutdown_ready this line H R). repeat split.
      * rewrite (stdoutHandler_primary this line H). repeat split.
      * rewrite (stdoutHandler_member this line H).
        cbn [state_of fst snd]. destruct (String.eqb _ _); repeat split.
  - rewrite (stdoutHandler_unmatched this line H). repeat split.
Qed.

Lemma step_frame i this :
  is_run i = false ->
  let t := state_of (step i this) in
  instanceOpts t = instanceOpts this
  /\ childProcess t = childProcess this
  /\ killerProcess t = killerProcess this.
Proof.
  intros Hr. destruct i as [m k|line|message|code|err| |]; try discriminate Hr; cbn [step].
  - apply stdoutHandler_frame.
  - repeat split.
  - repeat split.
  - unfold errorHandler. run_method.
    destruct (launch this); [destruct (killerProcess this) eqn:K|];
      repeat split; cbn [state_of fst snd killerProcess set_launch]; congruence.
  - unfold waitPrimaryReady. run_method. destruct (isInstancePrimary this); repeat split.
  - cbv [bind ret]. rewrite kill_unfolded. repeat split.
Qed.

Lemma feed_frame inputs this :
  forallb (fun i => negb (is_run i)) inputs = true ->
  let t := state_of (feed inputs this) in
  instanceOpts t = instanceOpts this
  /\ childProcess t = childProcess this
  /\ killerProcess t = killerProcess this.
Proof.
  revert this. induction inputs as [|i inputs IH]; intros this H; [repeat split|].
  cbn [forallb] in H. apply andb_true_iff in H as [Hi H].
  apply negb_true_iff in Hi. cbv zeta. rewrite feed_cons.
  destruct (IH (state_of (step i this)) H) as (-> & -> & ->).
  apply step_frame. exact Hi.
Qed.

(** X4: [run()] fails when the spawned server process has no pid, and then
    launches no killer process and stores no process.  When it has one,
    [getPid()] returns it from then on: no output of the server, no event, no
    wait and no [kill()] changes the options or the two processes of the
    handle. *)
Theorem getPid_after_run this spawnedMongod spawnedKiller :
  (pid spawnedMongod = None ->
   run spawnedMongod spawnedKiller this
   = (Thrown "Spawned Mongo Instance PID is undefined",
      set_launch (Some JS.Pending) this, []))
  /\ (forall n inputs,
        pid spawnedMongod = Some n ->
        forallb (fun i => negb (is_run i)) inputs = true ->
        let t := state_of (feed inputs (state_of (run spawnedMongod spawnedKiller this))) in
        getPid t = Some n
        /\ childProcess t = Some spawnedMongod
        /\ killerProcess t = Some spawnedKiller
        /\ instanceOpts t = instanceOpts this).
Proof.
  split.
  - intros Hp. unfold run, _launchMongod. rewrite Hp. reflexivity.
  - intros n inputs Hp Hin t. subst t.
    destruct (feed_frame inputs (state_of (run spawnedMongod spawnedKiller this)) Hin)
      as (Ho & Hc & Hk).
    unfold getPid. rewrite Ho, Hc, Hk.
    unfold run, _launchMongod, _launchKiller. rewrite Hp. run_method.
    repeat split. exact Hp.
Qed.

Lemma getPid_after_run_witness :
  getPid (state_of (feed [Stdout line_waiting; Stdout line_primary; Shutdown; Close 0]
                      (state_of (run example_mongod example_killer (new example_opts)))))
  = Some 4242%N.
Proof.
  exact (proj1 (proj2 (getPid_after_run (new example_opts) example_mongod example_killer)
                 4242%N [Stdout line_waiting; Stdout line_primary; Shutdown; Close 0]
                 eq_refl eq_refl)).
Defined.

End Runs.

Section LaunchOutcome.

Lemma resolve_settled {A E} (a : A) (p : JS.promise A E) :
  JS.settled p = true -> JS.resolve a p = p.
Proof. destruct p; [discriminate | reflexivity..]. Qed.

(** The launch and the ready flag after one line, by its classification. *)
Lemma stdoutHandler_launch this line p :
  launch this = Some p ->
  let t := state_of (stdoutHandler line this) in
  launch t = Some (match classify line with
                   | Some Waiting => JS.resolve tt p
                   | Some m => match failure_of this m with
                               | Some err => JS.reject err p
                               | None => p
                               end
                   | None => p
                   end)
  /\ isInstanceReady t = isInstanceReady this || is_waiting_line (Stdout line).
Proof.
  intros L. cbn [is_waiting_line]. destruct (classify line) as [m|] eqn:H.
  - destruct (failure_of this m) as [err|] eqn:F.
    + rewrite (stdoutHandler_failure this line m err p H F L). cbn [state_of fst snd].
      destruct m; try discriminate F; rewrite ?orb_false_r; split; reflexivity.
    + destruct m; try discriminate F.
      * rewrite (stdoutHandler_waiting this line H), L. cbn [state_of fst snd].
        rewrite orb_true_r. split; reflexivity.
      * cbn [failure_of] in F. destruct (isInstanceReady this) eqn:R; [|discriminate F].
        rewrite (stdoutHandler_shutdown_ready this line H R). cbn [state_of fst snd].
        rewrite R. split; [exact L | reflexivity].
      * rewrite (stdoutHandler_primary this line H). cbn [state_of fst snd].
        rewrite orb_false_r. split; [exact L | reflexivity].
      * rewrite (stdoutHandler_member this line H). cbn [state_of fst snd].
        rewrite orb_false_r. destruct (String.eqb _ _); split; (exact L || reflexivity).
  - rewrite (stdoutHandler_unmatched this line H). cbn [state_of fst snd].
    rewrite orb_false_r. split; [exact L | reflexivity].
Qed.

Lemma step_ready i this p :
  launch this = Some p ->
  (exists p', launch (state_of (step i this)) = Some p')
  /\ isInstanceReady (state_of (step i this)) = isInstanceReady this || is_waiting_line i.
Proof.
  intros L. destruct i as [m k|line|message|code|err| |]; cbn [step is_waiting_line];
    rewrite ?orb_false_r.
  - unfold run, _launchMongod, _launchKiller. run_method.
    destruct (pid m); split; eauto.
  - destruct (stdoutHandler_launch this line p L) as [Hl Hr]. split; [eauto | exact Hr].
  - split; eauto.
  - split; eauto.
  - unfold errorHandler. run_method. rewrite L.
    destruct (killerProcess this); split; eauto.
  - unfold waitPrimaryReady. run_method. destruct (isInstancePrimary this); split; eauto.
  - cbv [bind ret]. rewrite kill_unfolded. split; eauto.
Qed.

(** X5: once [run()] has been called, the handle is ready after a run of
    inputs exactly if it was ready before or one of the chunks of standard
    output was classified as the readiness line.  The flag is never reset:
    not by a failure, not by the close event, not by [kill()], and not by
    another [run()]. *)
Theorem ready_flag this inputs p :
  launch this = Some p ->
  isInstanceReady (state_of (feed inputs this))
  = isInstanceReady this || existsb is_waiting_line inputs.
Proof.
  revert this p. induction inputs as [|i inputs IH]; intros this p L.
  - cbn [existsb]. rewrite orb_false_r. reflexivity.
  - rewrite feed_cons. destruct (step_ready i this p L) as [[p' L'] R].
    rewrite (IH _ p' L'), R. cbn [existsb]. rewrite orb_assoc. reflexivity.
Qed.

Lemma ready_flag_witness :
  isInstanceReady
    (state_of (feed [Stdout line_addr_in_use; Stdout line_waiting; Close 0;
                     Run example_mongod example_killer; Shutdown] launching))
  = true.
Proof.
  exact (ready_flag launching
           [Stdout line_addr_in_use; Stdout line_waiting; Close 0;
            Run example_mongod example_killer; Shutdown] JS.Pending eq_refl).
Defined.

Lemma step_settled i this p :
  is_run i = false -> launch this = Some p -> JS.settled p = true ->
  launch (state_of (step i this)) = Some p.
Proof.
  intros Hr L S. destruct i as [m k|line|message|code|err| |]; try discriminate Hr; cbn [step].
  - destruct (stdoutHandler_launch this line p L) as [-> _]. f_equal.
    destruct (classify line) as [[]|]; cbn [failure_of];
      try destruct (isInstanceReady this);
      rewrite ?(resolve_settled _ _ S), ?(reject_settled _ _ S); reflexivity.
  - exact L.
  - exact L.
  - unfold errorHandler. run_method. rewrite L.
    destruct (killerProcess this); cbn [state_of fst snd launch set_launch];
      rewrite (reject_settled _ _ S); reflexivity.
  - unfold waitPrimaryReady. run_method. destruct (isInstancePrimary this); exact L.
  - cbv [bind ret]. rewrite kill_unfolded. exact L.
Qed.

Lemma feed_settled inputs this p :
  forallb (fun i => negb (is_run i)) inputs = true ->
  launch this = Some p -> JS.settled p = true ->
  launch (state_of (feed inputs this)) = Some p.
Proof.
  revert this. induction inputs as [|i inputs IH]; intros this H L S; [exact L|].
  cbn [forallb] in H. apply andb_true_iff in H as [Hi H]. apply negb_true_iff in Hi.
  rewrite feed_cons. apply IH; [exact H | apply step_settled; assumption | exact S].
Qed.

Lemma failure_of_ext t t' m :
  instanceOpts t = instanceOpts t' -> isInstanceReady t = isInstanceReady t' ->
  failure_of t m = failure_of t' m.
Proof. intros Ho Hr. destruct m; cbn [failure_of]; rewrite ?Ho, ?Hr; reflexivity. Qed.

Lemma first_verdict_ext t t' inputs :
  instanceOpts t = instanceOpts t' -> isInstanceReady t = isInstanceReady t' ->
  first_verdict t inputs = first_verdict t' inputs.
Proof.
  intros Ho Hr. induction inputs as [|i inputs IH]; cbn [first_verdict]; [reflexivity|].
  assert (verdict t i = verdict t' i) as ->.
  { destruct i; cbn [verdict]; try reflexivity.
    destruct (classify line) as [m|]; [|reflexivity].
    rewrite (failure_of_ext t t' m Ho Hr). reflexivity. }
  rewrite IH. reflexivity.
Qed.

Lemma verdict_settled this i v : verdict this i = Some v -> JS.settled v = true.
Proof.
  destruct i; cbn [verdict]; try discriminate.
  - destruct (classify line) as [m|]; [|discriminate].
    destruct m; cbn [fmap option_fmap option_map]; try (intros H; injection H as <-; reflexivity);
      destruct (failure_of this _); cbn; intros H; try discriminate H;
      injection H as <-; reflexivity.
  - intros H. injection H as <-. reflexivity.
Qed.

(** One input on a handle whose launch is pending and which is not ready. *)
Lemma step_verdict i this :
  is_run i = false -> launch this = Some JS.Pending -> isInstanceReady this = false ->
  let t := state_of (step i this) in
  match verdict this i with
  | Some v => launch t = Some v
  | None => launch t = Some JS.Pending /\ isInstanceReady t = false
  end.
Proof.
  intros Hr L R. destruct i as [m k|line|message|code|err| |]; try discriminate Hr;
    cbn [step verdict].
  - destruct (stdoutHandler_launch this line JS.Pending L) as [Hl Hrd].
    cbn [is_waiting_line] in Hrd. rewrite R in Hrd. cbv zeta. rewrite Hl, Hrd.
    destruct (classify line) as [m|]; [|split; reflexivity].
    destruct m; cbn [fmap option_fmap option_map failure_of]; rewrite ?R;
      try reflexivity; split; reflexivity.
  - split; assumption.
  - split; assumption.
  - unfold errorHandler. run_method. rewrite L. destruct (killerProcess this); reflexivity.
  - unfold waitPrimaryReady. run_method. destruct (isInstancePrimary this); split; assumption.
  - cbv [bind ret]. rewrite kill_unfolded. split; assumption.
Qed.

(** X6: on a handle that [run()] has just set up (launch pending, not
    ready) the outcome of the launch is decided by the first input that
    decides anything: the readiness line fulfils it, a failure line rejects
    it with the message of that failure, the [error] event of the process
    rejects it with its error.  No later input changes the outcome, and the
    launch stays pending as long as no such input has come; [kill()] and
    the close event decide nothing. *)
Theorem launch_outcome this inputs :
  launch this = Some JS.Pending -> isInstanceReady this = false ->
  forallb (fun i => negb (is_run i)) inputs = true ->
  launch (state_of (feed inputs this))
  = Some (default JS.Pending (first_verdict this inputs)).
Proof.
  revert this. induction inputs as [|i inputs IH]; intros this L R H; [exact L|].
  cbn [forallb] in H. apply andb_true_iff in H as [Hi H].
  pose proof Hi as Hi'. apply negb_true_iff in Hi'.
  rewrite feed_cons. cbn [first_verdict].
  pose proof (step_verdict i this Hi' L R) as Hs. cbv zeta in Hs.
  destruct (verdict this i) as [v|] eqn:V.
  - apply feed_settled; [exact H | exact Hs | eapply verdict_settled; exact V].
  - destruct Hs as [L' R']. rewrite (IH _ L' R' H). f_equal. f_equal.
    apply first_verdict_ext; [|congruence].
    apply (step_frame i this Hi').
Qed.

Lemma launch_outcome_witness :
  launch (state_of (feed [Stderr "warning"; Stdout line_member; Stdout line_addr_in_use;
                          Stdout line_waiting; Error "late"; Shutdown] launching))
  = Some (JS.Rejected "Port 27017 already in use").
Proof.
  exact (launch_outcome launching
           [Stderr "warning"; Stdout line_member; Stdout line_addr_in_use;
            Stdout line_waiting; Error "late"; Shutdown] eq_refl eq_refl eq_refl).
Defined.

Lemma failure_of_listed this m err :
  failure_of this m = Some err -> In err (stdout_failures this).
Proof.
  destruct m; cbn [failure_of]; try discriminate;
    try destruct (isInstanceReady this); try discriminate;
    intros H; injection H as <-; cbn [stdout_failures In]; tauto.
Qed.

(** X7: standard output can fail a launch only with one of eight messages:
    whenever a chunk turns a pending launch into a rejected one, the error
    is one of them. *)
Theorem stdout_failure_messages this line err :
  launch this = Some JS.Pending ->
  launch (state_of (stdoutHandler line this)) = Some (JS.Rejected err) ->
  In err (stdout_failures this).
Proof.
  intros L H. destruct (stdoutHandler_launch this line JS.Pending L) as [Hl _].
  cbv zeta in Hl. rewrite Hl in H. clear Hl.
  destruct (classify line) as [m|]; [|discriminate H].
  destruct (failure_of this m) as [e|] eqn:F.
  - apply failure_of_listed with m.
    destruct m; try discriminate F; cbn [JS.reject] in H; congruence.
  - destruct m; try discriminate H; discriminate F.
Qed.

Lemma stdout_failure_messages_witness :
  In "Mongod shutting down" (stdout_failures launching).
Proof.
  exact (stdout_failure_messages launching line_shutting_down "Mongod shutting down"
           eq_refl eq_refl).
Defined.

End LaunchOutcome.

Section Forwarding.

Lemma filter_resolves (f : effect -> bool) ws :
  (forall w v, f (ResolveFn w v) = false) ->
  List.filter f (map (fun w => ResolveFn w true) ws) = [].
Proof.
  intros Hf. induction ws as [|w ws IH]; cbn [map List.filter]; [reflexivity|].
  rewrite Hf. exact IH.
Qed.

Lemma filter_escalation (f : effect -> bool) o :
  (forall p s, f (Kill p s) = false) -> List.filter f (escalation o) = [].
Proof.
  intros Hf. destruct o as [p|]; [|reflexivity]. cbn [escalation List.filter].
  rewrite Hf. destruct (exits_on_SIGINT p); cbn [List.filter]; rewrite ?Hf; reflexivity.
Qed.

Lemma filter_kill (f : effect -> bool) this :
  (forall p s, f (Kill p s) = false) -> List.filter f (trace_of (kill this)) = [].
Proof.
  intros Hf. rewrite kill_unfolded. cbn [trace_of snd]. rewrite List.filter_app.
  rewrite filter_escalation by exact Hf.
  destruct (is_stuck (childProcess this)); [reflexivity|].
  rewrite filter_escalation by exact Hf. reflexivity.
Qed.

(** What a chunk of standard output leaves in the trace besides its own
    [instanceSTDOUT] event is neither a raw event nor an error event. *)
Lemma stdoutHandler_trace (f : effect -> bool) this line :
  (forall w v, f (ResolveFn w v) = false) -> (forall p s, f (Kill p s) = false) ->
  f (Emit MongoInstanceEvents.instanceReady []) = false ->
  f (Emit MongoInstanceEvents.instancePrimary []) = false ->
  (forall v, f (Emit MongoInstanceEvents.instanceState v) = false) ->
  List.filter f (trace_of (stdoutHandler line this))
  = List.filter f [Emit MongoInstanceEvents.instanceSTDOUT [VString line]].
Proof.
  intros Hr Hk Hrd Hp Hs. destruct (classify line) as [m|] eqn:H.
  - destruct (failure_of this m) as [err|] eqn:F.
    + destruct (launch this) as [p|] eqn:L.
      * rewrite (stdoutHandler_failure this line m err p H F L). cbn [trace_of snd].
        unfold killer_signalled. destruct (killerProcess this); cbn [List.filter];
          rewrite ?Hk; reflexivity.
      * rewrite (stdoutHandler_failure_default this line m err H F L). reflexivity.
    + destruct m; try discriminate F.
      * rewrite (stdoutHandler_waiting this line H). cbn [trace_of snd List.filter].
        rewrite Hrd. reflexivity.
      * cbn [failure_of] in F. destruct (isInstanceReady this) eqn:R; [|discriminate F].
        rewrite (stdoutHandler_shutdown_ready this line H R). reflexivity.
      * rewrite (stdoutHandler_primary this line H). cbn [trace_of snd List.filter].
        rewrite Hp, (filter_resolves f _ Hr). reflexivity.
      * rewrite (stdoutHandler_member this line H). cbn [trace_of snd List.filter].
        rewrite Hs. reflexivity.
  - rewrite (stdoutHandler_unmatched this line H). reflexivity.
Qed.

Lemma step_raw i this :
  List.filter is_raw_event (trace_of (step i this)) = raw_events i.
Proof.
  destruct i as [m k|line|message|code|err| |]; cbn [step raw_events].
  - unfold run, _launchMongod, _launchKiller. run_method. destruct (pid m); reflexivity.
  - rewrite stdoutHandler_trace by reflexivity. reflexivity.
  - reflexivity.
  - reflexivity.
  - unfold errorHandler. run_method.
    destruct (launch this); [destruct (killerProcess this)|]; reflexivity.
  - unfold waitPrimaryReady. run_method. destruct (isInstancePrimary this); reflexivity.
  - pose proof (filter_kill is_raw_event this (fun _ _ => eq_refl)) as Hk.
    cbv [bind ret]. destruct (kill this) as [[u t] tr]. cbn [trace_of snd] in *.
    rewrite app_nil_r. exact Hk.
Qed.

Lemma step_errors i this :
  List.filter is_error_event (trace_of (step i this)) = error_events i.
Proof.
  destruct i as [m k|line|message|code|err| |]; cbn [step error_events].
  - unfold run, _launchMongod, _launchKiller. run_method. destruct (pid m); reflexivity.
  - rewrite stdoutHandler_trace by reflexivity. reflexivity.
  - reflexivity.
  - reflexivity.
  - unfold errorHandler. run_method.
    destruct (launch this); [destruct (killerProcess this)|]; reflexivity.
  - unfold waitPrimaryReady. run_method. destruct (isInstancePrimary this); reflexivity.
  - pose proof (filter_kill is_error_event this (fun _ _ => eq_refl)) as Hk.
    cbv [bind ret]. destruct (kill this) as [[u t] tr]. cbn [trace_of snd] in *.
    rewrite app_nil_r. exact Hk.
Qed.

(** X8: the handle passes on what the server process does, as it is and in
    order: the [instanceSTDOUT], [instanceSTDERR] and [instanceClosed] events
    of a run are, one for one, the chunks of standard output, the chunks of
    standard error and the exit codes it received, whatever the state of the
    handle and however the chunks are classified. *)
Theorem raw_events_forwarded this inputs :
  List.filter is_raw_event (trace_of (feed inputs this)) = flat_map raw_events inputs.
Proof.
  revert this. induction inputs as [|i inputs IH]; intros this; [reflexivity|].
  rewrite feed_cons_trace, List.filter_app, step_raw, IH. reflexivity.
Qed.

(** X9: an [instanceError] event is emitted for every [error] event of the
    server process, with its error, and for nothing else: no chunk of
    output, however it is classified, and no [kill()] that fails adds
    one. *)
Theorem error_events_forwarded this inputs :
  List.filter is_error_event (trace_of (feed inputs this)) = flat_map error_events inputs.
Proof.
  revert this. induction inputs as [|i inputs IH]; intros this; [reflexivity|].
  rewrite feed_cons_trace, List.filter_app, step_errors, IH. reflexivity.
Qed.

End Forwarding.

Section PrimaryState.

Lemma step_primary_flag i this :
  isInstancePrimary (state_of (step i this)) = true ->
  isInstancePrimary this = true \/ is_primary_line i = true.
Proof.
  destruct i as [m k|line|message|code|err| |]; cbn [step is_primary_line].
  - unfold run, _launchMongod, _launchKiller. run_method. destruct (pid m); auto.
  - destruct (classify line) as [m|] eqn:H.
    + destruct (decide (m = Primary)) as [->|Np]; [auto|].
      destruct (decide (m = Member)) as [->|Nm].
      * rewrite (stdoutHandler_member this line H). cbn [state_of fst snd].
        destruct (String.eqb _ _); [auto | discriminate].
      * destruct (stdoutHandler_primary_flag this line) as [-> _]; try congruence. auto.
    + rewrite (stdoutHandler_unmatched this line H). auto.
  - auto.
  - auto.
  - unfold errorHandler. run_method.
    destruct (launch this); [destruct (killerProcess this)|];
      cbn [fst snd isInstancePrimary set_launch]; auto.
  - unfold waitPrimaryReady. run_method.
    destruct (isInstancePrimary this) eqn:E;
      cbn [fst snd isInstancePrimary set_primaryWaits set_waitForPrimaryResolveFns];
      rewrite ?E; auto.
  - cbv [bind ret]. rewrite kill_unfolded. cbn [state_of fst snd]. auto.
Qed.

(** X10: the primary flag is raised by the primary-election marker and by
    nothing else: if a handle is not primary before a run of inputs and is
    primary after it, one of the chunks of standard output was classified as
    the marker.  A member-state line that reports [PRIMARY] does not raise
    the flag. *)
Theorem primary_only_by_marker this inputs :
  isInstancePrimary this = false ->
  isInstancePrimary (state_of (feed inputs this)) = true ->
  existsb is_primary_line inputs = true.
Proof.
  revert this. induction inputs as [|i inputs IH]; intros this Hf Ht.
  - cbn in Ht. congruence.
  - rewrite feed_cons in Ht. cbn [existsb].
    destruct (isInstancePrimary (state_of (step i this))) eqn:E.
    + destruct (step_primary_flag i this E) as [H|H]; [congruence|].
      rewrite H. reflexivity.
    + rewrite (IH _ E Ht). apply orb_true_r.
Qed.

Lemma primary_only_by_marker_witness :
  existsb is_primary_line [Stdout line_member; Stdout line_primary] = true.
Proof.
  exact (primary_only_by_marker ready [Stdout line_member; Stdout line_primary]
           eq_refl eq_refl).
Defined.

Lemma step_wait_settled i this w p :
  primaryWaits this !! w = Some p -> JS.settled p = true ->
  primaryWaits (state_of (step i this)) !! w = Some p.
Proof.
  intros Hp S. destruct i as [m k|line|message|code|err| |]; cbn [step].
  - unfold run, _launchMongod, _launchKiller. run_method. destruct (pid m); exact Hp.
  - destruct (decide (classify line = Some Primary)) as [H|H].
    + rewrite (stdoutHandler_primary this line H). cbn [state_of fst snd].
      destruct this as [o c k fns pr rd la ws].
      cbn [primaryWaits waitForPrimaryResolveFns set_primaryWaits set_isInstancePrimary] in *.
      destruct (decide (w ∈ fns)).
      * rewrite resolve_all_lookup_in by assumption. rewrite Hp. cbn.
        rewrite (resolve_settled _ _ S). reflexivity.
      * rewrite resolve_all_lookup_notin by assumption. exact Hp.
    + destruct (stdoutHandler_waits this line H) as [-> _]. exact Hp.
  - exact Hp.
  - exact Hp.
  - unfold errorHandler. run_method.
    destruct (launch this); [destruct (killerProcess this)|]; exact Hp.
  - unfold waitPrimaryReady. run_method.
    destruct (isInstancePrimary this); destruct this; cbn in *;
      (rewrite lookup_app_l; [exact Hp | eapply lookup_lt_Some; eassumption]).
  - cbv [bind ret]. rewrite kill_unfolded. exact Hp.
Qed.

Lemma feed_wait_settled inputs this w p :
  primaryWaits this !! w = Some p -> JS.settled p = true ->
  primaryWaits (state_of (feed inputs this)) !! w = Some p.
Proof.
  revert this. induction inputs as [|i inputs IH]; intros this Hp S; [exact Hp|].
  rewrite feed_cons. apply IH; [apply step_wait_settled; assumption | exact S].
Qed.

(** X11: a primary wait made while the instance is primary is fulfilled at
    once and stores no resolve function; and a wait that has been fulfilled
    stays fulfilled with the same value whatever happens to the handle
    afterwards, also when the instance stops being primary, fails or is
    killed. *)
Theorem wait_when_primary this inputs :
  isInstancePrimary this = true ->
  let r := waitPrimaryReady this in
  let w := result_of r in
  primaryWaits (state_of r) !! w = Some (JS.Fulfilled true)
  /\ waitForPrimaryResolveFns (state_of r) = waitForPrimaryResolveFns this
  /\ primaryWaits (state_of (feed inputs (state_of r))) !! w = Some (JS.Fulfilled true)
  /\ (forall w' p, primaryWaits this !! w' = Some p -> JS.settled p = true ->
        primaryWaits (state_of (feed inputs this)) !! w' = Some p).
Proof.
  intros Hp r w.
  assert (primaryWaits (state_of r) !! w = Some (JS.Fulfilled true)) as Hw.
  { subst r w. unfold waitPrimaryReady. run_method. rewrite Hp. destruct this; cbn.
    rewrite lookup_app_r by reflexivity. rewrite Nat.sub_diag. reflexivity. }
  repeat split.
  - exact Hw.
  - subst r. unfold waitPrimaryReady. run_method. rewrite Hp. reflexivity.
  - apply feed_wait_settled; [exact Hw | reflexivity].
  - intros w' p H S. apply feed_wait_settled; assumption.
Qed.

Lemma wait_when_primary_witness :
  let this := state_of (stdoutHandler line_primary ready) in
  primaryWaits
    (state_of (feed [Stdout line_member; Stdout line_shutting_down; Shutdown]
                 (state_of (waitPrimaryReady this)))) !! 0
  = Some (JS.Fulfilled true).
Proof.
  exact (proj1 (proj2 (proj2 (wait_when_primary (state_of (stdoutHandler line_primary ready))
                                [Stdout line_member; Stdout line_shutting_down; Shutdown]
                                eq_refl)))).
Defined.

Lemma step_resolve_functions i this :
  exists added,
    waitForPrimaryResolveFns (state_of (step i this))
    = waitForPrimaryResolveFns this ++ added
    /\ length added <= (if is_wait i then 1 else 0)
    /\ length (primaryWaits (state_of (step i this)))
       = length (primaryWaits this) + (if is_wait i then 1 else 0).
Proof.
  destruct i as [m k|line|message|code|err| |]; cbn [step is_wait].
  - exists []. unfold run, _launchMongod, _launchKiller. run_method.
    destruct (pid m); cbn; rewrite app_nil_r; repeat split; lia.
  - exists []. rewrite app_nil_r.
    destruct (decide (classify line = Some Primary)) as [H|H].
    + rewrite (stdoutHandler_primary this line H). cbn [state_of fst snd].
      destruct this; cbn [primaryWaits waitForPrimaryResolveFns set_primaryWaits
                          set_isInstancePrimary].
      rewrite resolve_all_length. cbn. repeat split; lia.
    + destruct (stdoutHandler_waits this line H) as [-> ->]. cbn. repeat split; lia.
  - exists []. rewrite app_nil_r. cbn. repeat split; lia.
  - exists []. rewrite app_nil_r. cbn. repeat split; lia.
  - exists []. rewrite app_nil_r. unfold errorHandler. run_method.
    destruct (launch this); [destruct (killerProcess this)|]; cbn; repeat split; lia.
  - unfold waitPrimaryReady. run_method. destruct (isInstancePrimary this).
    + exists [].
      cbn [fst snd primaryWaits waitForPrimaryResolveFns set_primaryWaits].
      rewrite app_nil_r, length_app. cbn [length]. repeat split; lia.
    + exists [length (primaryWaits this)].
      cbn [fst snd primaryWaits waitForPrimaryResolveFns set_primaryWaits
           set_waitForPrimaryResolveFns].
      rewrite length_app. cbn [length]. repeat split; lia.
  - exists []. rewrite app_nil_r. cbv [bind ret]. rewrite kill_unfolded. cbn.
    repeat split; lia.
Qed.

(** X12: the list of resolve functions only grows: after any run of inputs
    it is the list from before followed by the functions added since, at most
    one for each call of [waitPrimaryReady()].  Nothing is ever taken out of
    it, neither when the waits are resolved nor on failure or [kill()]; and
    every call of [waitPrimaryReady()] makes one promise. *)
Theorem resolve_functions_kept this inputs :
  exists added,
    waitForPrimaryResolveFns (state_of (feed inputs this))
    = waitForPrimaryResolveFns this ++ added
    /\ length added <= length (List.filter is_wait inputs)
    /\ length (primaryWaits (state_of (feed inputs this)))
       = length (primaryWaits this) + length (List.filter is_wait inputs).
Proof.
  revert this. induction inputs as [|i inputs IH]; intros this.
  - exists []. rewrite app_nil_r. cbn. repeat split; lia.
  - rewrite feed_cons.
    destruct (step_resolve_functions i this) as (a1 & E1 & L1 & W1).
    destruct (IH (state_of (step i this))) as (a2 & E2 & L2 & W2).
    exists (a1 ++ a2). rewrite E2, E1, W2, W1, <- app_assoc, length_app.
    cbn [List.filter]. destruct (is_wait i); cbn [length]; repeat split; lia.
Qed.

End PrimaryState.

Section PassiveInputs.

Lemma step_passive i this :
  is_passive i = true -> state_of (step i this) = this.
Proof.
  destruct i; try discriminate; intros _; cbn [step]; try reflexivity.
  cbv [bind ret]. rewrite kill_unfolded. reflexivity.
Qed.

(** X14: chunks of standard error, close events and calls of [kill()] never
    change the handle: after any run of inputs the handle is the one the run
    without them gives.  Standard error is never classified, and after
    [kill()] the handle still holds its flags, its launch outcome, its waits
    and both processes. *)
Theorem passive_inputs this inputs :
  state_of (feed inputs this)
  = state_of (feed (List.filter (fun i => negb (is_passive i)) inputs) this).
Proof.
  revert this. induction inputs as [|i inputs IH]; intros this; [reflexivity|].
  rewrite feed_cons. cbn [List.filter]. destruct (is_passive i) eqn:P; cbn [negb].
  - rewrite (step_passive i this P). apply IH.
  - rewrite feed_cons. apply IH.
Qed.

Lemma in_killer_signalled this p s :
  In (Kill p s) (killer_signalled this) -> s = SIGTERM /\ killerProcess this = Some p.
Proof.
  unfold killer_signalled. destruct (killerProcess this) as [k|]; cbn [In]; [|tauto].
  intros [H|[]]. injection H as -> ->. split; reflexivity.
Qed.

Lemma step_signals i this p s :
  is_run i = false -> is_shutdown i = false ->
  In (Kill p s) (trace_of (step i this)) -> s = SIGTERM /\ killerProcess this = Some p.
Proof.
  intros Hr Hs. destruct i as [m k|line|message|code|err| |];
    try discriminate Hr; try discriminate Hs; cbn [step].
  - destruct (classify line) as [m|] eqn:H.
    + destruct (failure_of this m) as [err|] eqn:F.
      * destruct (launch this) as [q|] eqn:L.
        -- rewrite (stdoutHandler_failure this line m err q H F L). cbn [trace_of snd In].
           intros [HH|HH]; [discriminate HH | apply in_killer_signalled; exact HH].
        -- rewrite (stdoutHandler_failure_default this line m err H F L).
           cbn [trace_of snd In]. intros [HH|[]]. discriminate HH.
      * destruct m; try discriminate F.
        -- rewrite (stdoutHandler_waiting this line H). cbn [trace_of snd In].
           intros HH. repeat (destruct HH as [HH|HH]; try discriminate HH). destruct HH.
        -- cbn [failure_of] in F. destruct (isInstanceReady this) eqn:R; [|discriminate F].
           rewrite (stdoutHandler_shutdown_ready this line H R). cbn [trace_of snd In].
           intros [HH|[]]. discriminate HH.
        -- rewrite (stdoutHandler_primary this line H). cbn [trace_of snd In].
           intros HH. repeat (destruct HH as [HH|HH]; try discriminate HH).
           exfalso. eapply no_kill_in_resolves. exact HH.
        -- rewrite (stdoutHandler_member this line H). cbn [trace_of snd In].
           intros HH. repeat (destruct HH as [HH|HH]; try discriminate HH). destruct HH.
    + rewrite (stdoutHandler_unmatched this line H). cbn [trace_of snd In].
      intros [HH|[]]. discriminate HH.
  - cbn. intros [HH|[]]. discriminate HH.
  - cbn. intros [HH|[]]. discriminate HH.
  - unfold errorHandler. run_method. destruct (launch this) as [q|].
    + destruct (killerProcess this) as [k|]; cbn [trace_of fst snd app In].
      * intros [HH|[HH|[]]]; [discriminate HH|]. injection HH as -> ->. split; reflexivity.
      * intros [HH|[]]. discriminate HH.
    + cbn [trace_of fst snd app In]. intros [HH|[]]. discriminate HH.
  - unfold waitPrimaryReady. run_method. destruct (isInstancePrimary this); intros [].
Qed.

(** X15: only [kill()] ever signals the server process.  Whatever the server
    writes and whatever events arrive, the one signal the handle sends of its
    own is the default termination signal, and it sends it to the killer
    process only. *)
Theorem only_killer_signalled this inputs p s :
  forallb (fun i => negb (is_run i) && negb (is_shutdown i)) inputs = true ->
  In (Kill p s) (trace_of (feed inputs this)) ->
  s = SIGTERM /\ killerProcess this = Some p.
Proof.
  revert this. induction inputs as [|i inputs IH]; intros this H Hin; [destruct Hin|].
  cbn [forallb] in H. apply andb_true_iff in H as [Hi H].
  apply andb_true_iff in Hi as [Hr Hs].
  apply negb_true_iff in Hr. apply negb_true_iff in Hs.
  rewrite feed_cons_trace in Hin. apply in_app_iff in Hin as [Hin|Hin].
  - apply (step_signals i this p s Hr Hs Hin).
  - destruct (IH _ H Hin) as [-> Hk]. split; [reflexivity|].
    rewrite <- Hk. symmetry. apply (step_frame i this Hr).
Qed.

Lemma only_killer_signalled_witness :
  SIGTERM = SIGTERM /\ killerProcess launching = Some example_killer.
Proof.
  refine (only_killer_signalled launching
            [Stdout line_member; Stdout line_addr_in_use; Error "exit"; Close 48]
            example_killer SIGTERM eq_refl _).
  vm_compute. tauto.
Defined.

End PassiveInputs.

Section MoreWitnesses.

Lemma ready_marker_witness :
  let line := "E addr already in use; I NETWORK Waiting For Connections on port 27017" in
  stdoutHandler line launching
  = (tt, set_launch (Some (JS.Fulfilled tt)) (set_isInstanceReady true launching),
     [Emit MongoInstanceEvents.instanceSTDOUT [VString line];
      Emit MongoInstanceEvents.instanceReady []]).
Proof.
  intros line.
  refine (proj1 (ready_marker launching line JS.Pending eq_refl) _).
  exists (RegExp.chars "E addr already in use; I NETWORK "),
         (RegExp.chars "Waiting For Connections"),
         (RegExp.chars " on port 27017").
  split; reflexivity.
Defined.

Lemma classification_ignores_case_witness :
  classify "ADDR ALREADY IN USE" = classify "addr already in use".
Proof.
  refine (proj1 (classification_ignores_case launching
                   "ADDR ALREADY IN USE" "addr already in use" _)).
  reflexivity.
Defined.

End MoreWitnesses.
